(* ===== verification/_CoqProject ===== *)
-Q . S2P
Prelude.v
JsNumber.v
JsRuntime.v
Json.v
Document.v
Dom.v
Html.v
HtmlTree.v
Api.v
Interfaces.v
Main.v
