(* ===== verification/Prelude.v ===== *)
(** * A verification development of the users widget (api.js, dom.js, main.js)

    The program is a browser widget of three ES modules under [src/js]:
    - [api.js], [fetchUsers]: an async function that GETs
      [https://jsonplaceholder.typicode.com/users] with [fetch], throws
      [Error('Erreur API')] when [response.ok] is false, and otherwise
      returns [await response.json()]; its [catch] rethrows.
    - [dom.js], [displayUsers(users, container)]: clears the container
      ([innerHTML = '']), then for each user creates a [div], adds the class
      [user-card], sets its [innerHTML] to a template literal reading
      [user.name], [user.email] and [user.address.city], and appends it;
      [displayError(message, container)] replaces the container's content by
      a red paragraph holding the message.
    - [main.js]: at module load looks up [#loadUsersBtn] and
      [#usersContainer] and registers a click listener which awaits
      [fetchUsers()] and calls [displayUsers], or [displayError] with the
      error's message when anything in the [try] throws.

    The components interact by calls only: the click handler calls
    [fetchUsers] and, after its promise settles, [displayUsers] or
    [displayError] on the shared document.  The one piece of shared mutable
    state is the DOM; the hard behaviours are the error paths (network
    failure, HTTP error, malformed JSON, malformed users, null elements)
    and the interleaving of several clicks whose requests are in flight at
    the same time.

    ** Files
    - [Prelude] (this file): the completion type of JS ([Normal]/[Throw])
      with [cbind] and its inversion lemmas, a state-and-exception monad
      [st] with its notation in [jsm_scope], [try_catch], the [for_each]
      loop, the hint database [jsm] and the shared lemmas on these and on
      strings.
    - [JsNumber]: JS numbers as IEEE binary64 doubles ([spec_float]):
      [double_of_decimal], the correctly rounded double of a decimal
      [d * 10^p], which [JSON.parse] uses, and [number_to_string],
      ECMAScript's Number::toString (the shortest digits that read back as
      the double, in plain or exponent layout), which ToString uses.
    - [JsRuntime]: the JS values the code handles (JSON data plus
      [undefined]), error objects, property access [get_prop] with its
      TypeErrors, the template-literal ToString [to_string] (which throws
      on an object with its own [toString] key), and the [engine] record
      of the engine's error messages (V8's wording as the instance [v8]).
    - [Json]: [JSON.parse] as [response.json()] applies it to the body
      text ([json_parse], a mutual fixpoint [parse_value]/[parse_elems]/
      [parse_members] over fuel, with [parse_chars] for string literals
      and [parse_number] for the full number grammar), and a printer
      [json_print] in the manner of [JSON.stringify] standing for the
      server.
    - [Document]: the DOM the code touches, as a heap [gmap positive element]
      with [createElement], the [innerHTML] setter, [classList.add],
      [appendChild] (with its ancestor check [inclusive_ancestor]) and
      [getElementById]; the well-formedness invariant [wf] (parent links,
      freshness of the allocator) and its preservation.
    - [Dom]: [dom.js]: [card_html] (the template, each substitution read
      and converted in source order), [displayUsers], [displayError];
      their functional specifications on every branch, the partial render
      on a malformed user, the frame property, the allocation bound.
    - [Html]: the tokenizer of the HTML standard that the [innerHTML]
      setter runs ([html_step], [html_run], [html_tokens]), with the
      attribute states, the comment, raw-text and plaintext states, and
      what it makes of the card and error templates.
    - [HtmlTree]: the tree construction stage that follows the tokenizer
      (the "in body" insertion mode of a fragment parsed for a [div]): a
      builder with the stack of open elements ([start_tag], [end_tag],
      [tree_step], [tree_run]) and [html_tree], the forest of elements an
      [innerHTML] assignment parses.
    - [Api]: [api.js]: [fetchUsers] as a phase machine over the two awaits
      ([fetch] and [response.json()]), with the network and the body read
      as events and the body text parsed by [json_parse]; the
      classification of its outcomes.
    - [Interfaces]: the two [import] lines of main.js as classes of
      operations ([ApiModule], [DomModule]) with the class of laws
      [DomSpec] stating what main.js relies on of dom.js; the instance
      for the module of [Dom] proves the laws.
    - [Main]: [main.js]: module initialisation, the click handler composed
      of [fetchUsers] and the two display functions, and the event loop as a
      step function on an [app] state holding every handler invocation in
      flight; reachability by rule induction, the invariant that the
      container always shows the view of the last request to settle, the
      absence of rejections, the null-element error paths, and as
      examples the stale-response race and the markup of the response
      reaching the page.

    The components meet at interfaces: [Dom] and [Api] are written against
    the [engine] record and the [dom] state monad of [Document]; [Main] is
    written against the classes of [Interfaces] (what main.js imports) and
    proves its theorems from the laws of [DomSpec] only, for every
    implementation of dom.js that meets them and any [fetchUsers];
    [dom_module_spec] discharges the laws for dom.js from the lemmas of
    [Dom] ([clear_container], [displayUsers_eq], [plan_state_ok],
    [displayError_shows]), and the examples of [Main] run the composed
    program on the modules of [Api] and [Dom].

    ** What the theorems show
    - dom.js ([Dom]): [displayUsers_refines] relates [displayUsers] to its
      abstract plan [users_plan] (the cards it leaves and the error it
      throws) on every input; [displayUsers_renders_all],
      [displayUsers_partial_render], [displayUsers_not_array] are its
      branches; [displayUsers_frame] bounds what it touches and
      [displayUsers_alloc_bound] what it allocates (one [div] per user
      reached); [displayError_replaces] specifies [displayError] on both
      receivers and on a message whose ToString throws;
      [card_html_normal_iff] characterises the users whose template
      evaluates and [card_html_object] the order in which it reads and
      converts the substitutions.  The DOM invariant [wf] is preserved by
      every operation.
    - The markup ([Html]): [card_tokens] and [error_tokens] show that the
      tags the [innerHTML] setter finds in a card or in the error paragraph
      are the template's with the tags of the interpolated data spliced in
      (the markup injection); [card_tokens_text] that data without [<]
      adds none; [card_tokens_comment] and [card_tokens_rawtext] that a
      comment or a raw-text element ([textarea], [title], [script], ...)
      opened in the name turns the rest of the card into text, and
      [card_tree_rawtext] ([HtmlTree]) that the card is then the heading
      alone.
    - The parsed elements ([HtmlTree]): [card_tree] and [error_tree] give
      the elements the setter builds for a card and for the error
      paragraph: a void tag in a field ([img] with its [onerror], [br])
      becomes an element inside the heading or paragraph where the field
      is interpolated; [card_tree_stray_end_p] shows that an end tag in
      the data changes the structure of the card (an extra empty
      paragraph).
    - api.js ([Api]): [fetchUsers_resolves_iff] and [fetchUsers_rejects_iff]
      classify every outcome over all network behaviours and body texts.
    - main.js ([Main]): by rule induction on [reachable], the record
      [app_inv] holds in every state; from it [reachable_shows_last_settled]
      (the container shows the view [handler_view] of the last
      settlement), [reachable_no_rejection], [missing_container_rejects];
      and [missing_button_inert].  The examples [stale_response_overwrites]
      (the race on a concrete run) and [injected_markup_reaches_page] (the
      injection from the response text to the tokens and the parsed
      elements of the card) run the composed program.
    - The runtime models are checked on concrete inputs by examples:
      [json_number_text] (numbers read by [JSON.parse] and printed by
      ToString, as V8 does), [json_number_rejects], [attr_equals_name],
      [cr_ends_tag_name], [in_body_rules], [fetchUsers_bodies].

    ** Bounds, fuel and abstractions
    - A JS number is a binary64 double.  [double_of_decimal] rounds with
      the IEEE operations of [SpecFloat] ([binary_normalize] for
      [d * 10^p], the division core for [d / 10^q]); a decimal of at
      least [10^309] reads as an infinity and one below [10^-324] as zero
      before any power is computed.  [number_to_string] tries lengths [k]
      from 1 to 17 (17 digits always read back as the double) and at each
      the two integers around [x / 10^(n-k)] for the two candidate
      exponents [n].
    - [json_parse] gives its parser one unit of fuel per character plus
      one; each nested call follows a consumed character, so the fuel
      outlasts the text.
    - [innerHTML] assignment keeps the assigned text as one [NMarkup]
      child (none for the empty string); its tokens are given by [Html],
      exact for the tags except for the escape states of script data
      ([<!--] inside a [script]); character references cannot change the
      tags (they never consume [<], [>] or a quote); CR is read as LF,
      which gives the tags and states of the standard's newline
      normalisation ([html_step_lf_lf]).  [HtmlTree] builds the elements
      from the tokens beside the heap, without text nodes; its scope is
      the whole stack of open elements (no scope boundaries, no special
      elements stopping an end tag) and it leaves out the rules of lists,
      formatting elements, tables and foreign content, none of which the
      templates contain.
    - The parsed elements are the image of the markup child, not heap
      nodes of their own: the code never reaches inside a card.
    - [getElementById] walks the tree with fuel [size nodes + 1], and the
      ancestor check of [appendChild] climbs at most [size nodes + 1]
      parent links; a well-formed tree never exhausts either.
    - Microtask ticks between the settling of [fetchUsers]'s promise and
      the resumption of the handler run no other DOM code, so a settlement
      and the handler's synchronous continuation form one atomic step.
    - Browser error messages are parameters ([engine]); [v8] is Chrome's.

    ** Not modelled
    - The host page ([index.html]) is not in the repository's sources; the
      examples use [sample_page], the body with [#loadUsersBtn] and
      [#usersContainer] that main.js expects.
    - The ES module loader itself (resolution and evaluation order of the
      modules): the [import] lines are modelled by the bindings of
      [Interfaces], not by a loader.
    - The network itself: [fetch] and the body read are the environment's
      events, any of which the theorems quantify over.
    - Text nodes: the tokenizer keeps the tags and the tree builder the
      elements, since the theorems are about the elements the data creates;
      the text a card shows is the assigned string, which the heap keeps.
      The escape states of script data are left out with them.
    - The insertion-mode rules for tables, lists, formatting elements,
      scope boundaries, special elements and foreign content: none is
      reached by the templates, and the theorems on data-borne markup are
      stated for inline void tags, end tags of [p], comments and raw-text
      elements.
    - [\u] escapes above [00FF] in JSON strings: strings hold 8-bit
      characters and [json_parse] rejects them; JS strings are UTF-16.
    - The prototype chain: a JSON object inherits only [toString] and
      [valueOf] from [Object.prototype] in the model, which is all that
      ToString consults.
*)

From stdpp Require Export base gmap strings list.
From Stdlib Require Export ZArith Lia.

Declare Scope jsm_scope.
Delimit Scope jsm_scope with jsm.

Create HintDb jsm discriminated.
Create Rewrite HintDb jsm_rw.

(** ** Completions: what a JS statement ends with *)

Inductive completion (E A : Type) : Type :=
| Normal (a : A)
| Throw (e : E).
Arguments Normal {E A} a.
Arguments Throw {E A} e.

(** Sequencing of completions: the first throw wins. *)
Definition cbind {E A B} (c : completion E A) (f : A -> completion E B)
  : completion E B :=
  match c with
  | Normal a => f a
  | Throw e => Throw e
  end.

Lemma cbind_Normal {E A B} (c : completion E A) (f : A -> completion E B) b :
  cbind c f = Normal b <-> exists a, c = Normal a /\ f a = Normal b.
Proof. destruct c; naive_solver. Qed.

Lemma cbind_Throw {E A B} (c : completion E A) (f : A -> completion E B) e :
  cbind c f = Throw e <-> c = Throw e \/ exists a, c = Normal a /\ f a = Throw e.
Proof. destruct c; naive_solver. Qed.

(** ** The state-and-exception monad of synchronous JS code.  A throw keeps
    the state reached so far: DOM writes done before an exception stay. *)

Definition st (S E A : Type) : Type := S -> completion E A * S.

Section StMonad.
Context {S E : Type}.

Definition ret {A} (a : A) : st S E A := fun s => (Normal a, s).

Definition throw {A} (e : E) : st S E A := fun s => (Throw e, s).

Definition bind {A B} (m : st S E A) (f : A -> st S E B) : st S E B :=
  fun s =>
    match m s with
    | (Normal a, s') => f a s'
    | (Throw e, s') => (Throw e, s')
    end.

(** [try { m } catch (e) { h(e) }] *)
Definition try_catch {A} (m : st S E A) (h : E -> st S E A) : st S E A :=
  fun s =>
    match m s with
    | (Normal a, s') => (Normal a, s')
    | (Throw e, s') => h e s'
    end.

(** A completion computed without touching the state. *)
Definition lift {A} (c : completion E A) : st S E A := fun s => (c, s).

Definition modify (f : S -> S) : st S E unit := fun s => (Normal tt, f s).

(** [xs.forEach(f)]: the callback on each element in order; the first
    throw stops the loop. *)
Fixpoint for_each {A} (f : A -> st S E unit) (xs : list A) : st S E unit :=
  match xs with
  | [] => ret tt
  | x :: xs' => bind (f x) (fun _ => for_each f xs')
  end.

End StMonad.

Notation "x <- m ;; k" := (bind m (fun x => k))
  (at level 100, m at next level, right associativity) : jsm_scope.
Notation "m ;; k" := (bind m (fun _ => k))
  (at level 100, right associativity) : jsm_scope.

Open Scope jsm_scope.

(** ** Laws of the monad (pointwise: [st] is a function type) *)

Section StLaws.
Context {S E : Type}.

Lemma bind_ret_l {A B} (a : A) (f : A -> st S E B) s :
  bind (ret a) f s = f a s.
Proof. reflexivity. Qed.

Lemma bind_throw {A B} (e : E) (f : A -> st S E B) s :
  bind (throw e) f s = (Throw e, s).
Proof. reflexivity. Qed.

Lemma bind_assoc {A B C} (m : st S E A) (f : A -> st S E B)
      (g : B -> st S E C) s :
  bind (bind m f) g s = bind m (fun a => bind (f a) g) s.
Proof. unfold bind. by destruct (m s) as [[a|e] s']. Qed.

Lemma bind_normal {A B} (m : st S E A) (f : A -> st S E B) s a s' :
  m s = (Normal a, s') -> bind m f s = f a s'.
Proof. unfold bind. by intros ->. Qed.

Lemma bind_abrupt {A B} (m : st S E A) (f : A -> st S E B) s e s' :
  m s = (Throw e, s') -> bind m f s = (Throw e, s').
Proof. unfold bind. by intros ->. Qed.

Lemma try_catch_normal {A} (m : st S E A) h s a s' :
  m s = (Normal a, s') -> try_catch m h s = (Normal a, s').
Proof. unfold try_catch. by intros ->. Qed.

Lemma try_catch_abrupt {A} (m : st S E A) h s e s' :
  m s = (Throw e, s') -> try_catch m h s = h e s'.
Proof. unfold try_catch. by intros ->. Qed.

Lemma lift_normal {A} (c : completion E A) a (s : S) :
  c = Normal a -> lift c s = (Normal a, s).
Proof. unfold lift. by intros ->. Qed.

Lemma lift_abrupt {A} (c : completion E A) e (s : S) :
  c = Throw e -> lift c s = (Throw e, s).
Proof. unfold lift. by intros ->. Qed.

(** [catch (e) { throw e; }] is the identity. *)
Lemma try_catch_rethrow {A} (m : st S E A) s :
  try_catch m throw s = m s.
Proof. unfold try_catch. by destruct (m s) as [[a|e] s']. Qed.

Lemma for_each_app {A} (f : A -> st S E unit) xs ys s :
  for_each f (xs ++ ys) s = bind (for_each f xs) (fun _ => for_each f ys) s.
Proof.
  revert s. induction xs as [|x xs IH]; intros s; [done|].
  simpl. rewrite bind_assoc.
  destruct (f x s) as [[[]|e] s'] eqn:Hf.
  - rewrite !(bind_normal _ _ _ _ _ Hf). apply IH.
  - by rewrite !(bind_abrupt _ _ _ _ _ Hf).
Qed.


End StLaws.

#[export] Hint Rewrite @bind_ret_l @bind_throw @bind_assoc @try_catch_rethrow
  : jsm_rw.

(** ** Shared tactics *)

(** Prove a decidable proposition on closed data by evaluation. *)
Ltac vm_decide := apply (bool_decide_unpack _); vm_compute; exact I.

(** ** Strings *)

(** stdpp makes [String.append] opaque to [simpl]; these are its equations. *)
Lemma string_app_nil_l (b : string) : "" +:+ b = b.
Proof. reflexivity. Qed.

Lemma string_app_cons ch (a b : string) :
  String ch a +:+ b = String ch (a +:+ b).
Proof. reflexivity. Qed.

Lemma string_app_assoc (a b c : string) :
  (a +:+ b) +:+ c = a +:+ (b +:+ c).
Proof.
  induction a as [|ch a IH]; [done|]. by rewrite !string_app_cons, IH.
Qed.

Lemma string_app_nil_r (a : string) : a +:+ "" = a.
Proof.
  induction a as [|ch a IH]; [done|]. by rewrite !string_app_cons, IH.
Qed.



#[export] Hint Rewrite string_app_nil_l string_app_cons string_app_assoc
  string_app_nil_r : jsm_rw.

(** ** Decidability through an equivalence *)

Definition decide_by_iff (P Q : Prop) `{!Decision P} (H : P <-> Q) : Decision Q :=
  match decide P with
  | left p => left (proj1 H p)
  | right np => right (fun q => np (proj2 H q))
  end.


