(* ===== verification/JsNumber.v ===== *)
(** * JavaScript numbers: IEEE 754 doubles

    A JS number is a binary64 double ([spec_float] of the standard
    library, the IEEE specification borrowed from Flocq).  Two operations
    of the runtime produce or consume them in this program:
    - [JSON.parse] turns the decimal text of a number into the nearest
      double, ties to even ([double_of_decimal], used by [Json]);
    - a template literal turns a number into text by Number::toString
      (ECMAScript 6.1.6.1.20, radix 10), the shortest decimal that reads
      back as the same double, in plain or exponent notation
      ([number_to_string], used by [to_string] in [JsRuntime]).

    Decimal to double: an integer [d * 10^p] is rounded by
    [binary_normalize]; a fraction [d / 10^q] by the division core of the
    specification, whose quotient carries enough bits and the location of
    the remainder for a correctly rounded result.  Text whose value is at
    least [10^309] is above the largest double and reads as an infinity,
    text below [10^-324] is below half the smallest one and reads as zero;
    testing this first avoids computing astronomically large powers. *)

From S2P Require Import Prelude.
From Stdlib Require Import SpecFloat QArith Qabs Ascii.
From stdpp Require Import pretty.

(** binary64: 53 bits of mantissa, infinities at exponent 1024. *)
Definition prec : Z := 53.
Definition emax : Z := 1024.

#[global] Instance spec_float_eq_dec : EqDecision spec_float.
Proof. solve_decision. Defined.

(** ** Decimal digits *)

Fixpoint dec_size (fuel : nat) (n : Z) : Z :=
  match fuel with
  | O => 0
  | S f => if (n <? 10)%Z then 1 else 1 + dec_size f (n / 10)
  end.

(** The number of decimal digits of a positive [n]: it has no more than
    binary ones. *)
Definition ndigits (n : Z) : Z := dec_size (S (Z.to_nat (Z.log2 n))) n.

(** ** From decimal text to a double *)

(** The double nearest to [d * 10^p], of sign [neg]. *)
Definition double_of_decimal (neg : bool) (d : Z) (p : Z) : spec_float :=
  if decide (d <= 0)%Z then S754_zero neg
  else if decide (ndigits d - 1 + p >= 309)%Z then S754_infinity neg
  else if decide (ndigits d + p <= -324)%Z then S754_zero neg
  else if decide (0 <= p)%Z then
    binary_normalize prec emax (if neg then - (d * 10 ^ p) else d * 10 ^ p)%Z 0 neg
  else
    let '(q, e, l) := SFdiv_core_binary prec emax d 0 (10 ^ (- p)) 0 in
    binary_round_aux prec emax neg q e l.

(** ** Number::toString *)

(** The value of a finite positive double, as a rational. *)
Definition finite_Q (m : positive) (e : Z) : Q :=
  if decide (0 <= e)%Z then inject_Z (Zpos m * 2 ^ e) else Zpos m # Z.to_pos (2 ^ (- e)).

Definition pow10_Q (p : Z) : Q :=
  if decide (0 <= p)%Z then inject_Z (10 ^ p) else 1 # Z.to_pos (10 ^ (- p)).

(** The [n] with [10^(n-1) <= x < 10^n]. *)
Definition dec_exponent (x : Q) : Z :=
  let n0 := (ndigits (Qnum x) - ndigits (Zpos (Qden x)))%Z in
  if Qle_bool (pow10_Q n0) x then (n0 + 1)%Z else n0.

(** The [s] of [k] digits with [s * 10^(n-k)] reading back as the double
    [x]: the integers around [x / 10^(n-k)] are the only ones that can. *)
Definition candidates (m : positive) (e : Z) (k n : Z) : list (Z * Z) :=
  let x := finite_Q m e in
  let y := (x / pow10_Q (n - k))%Q in
  let lo := (Qnum y / Zpos (Qden y))%Z in
  filter (fun sn => (10 ^ (k - 1) <= sn.1 < 10 ^ k)%Z /\
                    double_of_decimal false sn.1 (sn.2 - k) = S754_finite false m e)
    [(lo, n); (lo + 1, n)]%Z.

(** Of two candidates, the one whose value is closer to [x], the even one
    on a tie. *)
Definition closer (x : Q) (k : Z) (a b : Z * Z) : Z * Z :=
  let da := Qabs (inject_Z a.1 * pow10_Q (a.2 - k) - x) in
  let db := Qabs (inject_Z b.1 * pow10_Q (b.2 - k) - x) in
  match Qcompare da db with
  | Lt => a
  | Gt => b
  | Eq => if Z.even a.1 then a else b
  end.

(** The shortest [k] (at most 17, which always suffices for a double),
    with its [s] and [n]. *)
Fixpoint shortest (fuel : nat) (k : Z) (m : positive) (e : Z) (x : Q) (n : Z) : Z * Z * Z :=
  match candidates m e k n ++ candidates m e k (n + 1) with
  | c :: cs => (k, (foldl (closer x k) c cs).1, (foldl (closer x k) c cs).2)
  | [] => match fuel with
          | O => (k, 0%Z, n)
          | S f => shortest f (k + 1)%Z m e x n
          end
  end.

Definition zeros (n : Z) : string := String.string_of_list_ascii (repeat "0"%char (Z.to_nat n)).

(** The digits of [s] at [n], in the five layouts of the standard. *)
Definition layout (k s n : Z) : string :=
  let ds := pretty (Z.to_N s) in
  let exp := "e" +:+ (if decide (0 <= n - 1)%Z then "+" else "-") +:+ pretty (Z.to_N (Z.abs (n - 1))) in
  if decide (k <= n <= 21)%Z then ds +:+ zeros (n - k)
  else if decide (0 < n <= 21)%Z then
    String.substring 0 (Z.to_nat n) ds +:+ "." +:+ String.substring (Z.to_nat n) (Z.to_nat (k - n)) ds
  else if decide (-6 < n <= 0)%Z then "0." +:+ zeros (- n) +:+ ds
  else if decide (k = 1)%Z then ds +:+ exp
  else String.substring 0 1 ds +:+ "." +:+ String.substring 1 (Z.to_nat (k - 1)) ds +:+ exp.

Definition number_to_string (x : spec_float) : string :=
  match x with
  | S754_nan => "NaN"
  | S754_zero _ => "0"
  | S754_infinity false => "Infinity"
  | S754_infinity true => "-Infinity"
  | S754_finite sgn m e =>
      let x := finite_Q m e in
      let '(k, s, n) := shortest 16 1 m e x (dec_exponent x) in
      (if sgn then "-" else "") +:+ layout k s n
  end.

(** The double of an integer, as [length] gives it. *)
Definition double_of_Z (z : Z) : spec_float :=
  double_of_decimal (bool_decide (z < 0)%Z) (Z.abs z) 0.
