(* ===== verification/JsRuntime.v ===== *)
(** * The JavaScript runtime the widget relies on

    The values the code handles are JSON data returned by [response.json()]
    plus [undefined] (what a missing property reads as); error objects
    carry a [name] and a [message].  Property reads ([user.name],
    [user.address.city], [users.forEach]) go through [get_prop], which
    throws a TypeError on [undefined] and [null]; template literals convert
    each substitution with [to_string] (ECMAScript ToString), which throws
    on an object with an own [toString] key (OrdinaryToPrimitive then
    finds no callable method) and prints a number, an IEEE double, by
    Number::toString ([JsNumber]).  The wording
    of the engine's TypeError messages differs between browsers, so it is
    a record [engine] of message builders; [v8] gives Chrome's. *)

From S2P Require Import Prelude JsNumber.
From Stdlib Require Import SpecFloat.

(** ** Values *)

#[local] Set Warnings "-register-all".

Inductive value : Type :=
| Undefined
| Null
| Bool (b : bool)
| Number (x : spec_float)
| Str (s : string)
| Array (xs : list value)
| Object (props : list (string * value)).

(** ** Errors *)

Record js_error : Type := mkError {
  err_name : string;
  err_message : string
}.

Definition type_error (m : string) : js_error := mkError "TypeError" m.
Definition syntax_error (m : string) : js_error := mkError "SyntaxError" m.
(** A [DOMException] named [HierarchyRequestError]. *)
Definition hierarchy_error (m : string) : js_error := mkError "HierarchyRequestError" m.
(** [new Error(m)] *)
Definition plain_error (m : string) : js_error := mkError "Error" m.

(** The engine's wording of the errors the runtime raises. *)
Record engine : Type := {
  (** reading property [k] of [undefined]/[null] *)
  msg_read_prop : string -> string -> string;
  (** assigning property [k] of [undefined]/[null] *)
  msg_set_prop : string -> string -> string;
  (** calling a non-function; the argument is the callee's source text *)
  msg_not_function : string -> string;
  (** [fetch] rejected by a network failure *)
  msg_fetch_failed : string;
  (** the body stream failed while [response.json()] read it *)
  msg_body_failed : string;
  (** [JSON.parse] rejected the body text *)
  msg_json_syntax : string -> string;
  (** [appendChild] of a node under itself or one of its descendants *)
  msg_hierarchy : string;
  (** ToString of an object none of whose [toString]/[valueOf] is callable *)
  msg_to_primitive : string
}.

Definition v8 : engine := {|
  msg_read_prop b k :=
    "Cannot read properties of " +:+ b +:+ " (reading '" +:+ k +:+ "')";
  msg_set_prop b k :=
    "Cannot set properties of " +:+ b +:+ " (setting '" +:+ k +:+ "')";
  msg_not_function e := e +:+ " is not a function";
  msg_fetch_failed := "Failed to fetch";
  msg_body_failed := "network error";
  msg_json_syntax t :=
    if decide (t = "") then "Unexpected end of JSON input"
    else "Unexpected token, " +:+ t +:+ " is not valid JSON";
  msg_hierarchy :=
    "Failed to execute 'appendChild' on 'Node': The new child element contains the parent.";
  msg_to_primitive := "Cannot convert object to primitive value"
|}.

(** ** Property access *)

(** [JSON.parse] keeps the last of duplicated keys. *)
Fixpoint obj_lookup (ps : list (string * value)) (k : string) : option value :=
  match ps with
  | [] => None
  | (k', v) :: ps' =>
      match obj_lookup ps' k with
      | Some w => Some w
      | None => if decide (k' = k) then Some v else None
      end
  end.

Section Access.
Context (eng : engine).

(** [v[k]] for the non-index keys the code reads: own properties of
    objects, [length] of arrays and strings; no prototype of a JSON value
    has a property named [name], [email], [address], [city] or
    [message]. *)
Definition get_prop (v : value) (k : string) : completion js_error value :=
  match v with
  | Undefined => Throw (type_error (msg_read_prop eng "undefined" k))
  | Null => Throw (type_error (msg_read_prop eng "null" k))
  | Object ps => Normal (default Undefined (obj_lookup ps k))
  | Array xs =>
      Normal (if decide (k = "length") then Number (double_of_Z (Z.of_nat (length xs)))
              else Undefined)
  | Str s =>
      Normal (if decide (k = "length") then Number (double_of_Z (Z.of_nat (String.length s)))
              else Undefined)
  | Bool _ | Number _ => Normal Undefined
  end.

(** ** ToString, as a template literal applies it to a substitution *)

(** A JSON object inherits [toString] and [valueOf] from
    [Object.prototype] unless it has an own key of that name, which holds
    a JSON value and so no function.  OrdinaryToPrimitive (hint string)
    tries [toString] first: the inherited one gives ["[object Object]"];
    an own one is not callable, [valueOf] then returns the object itself,
    not a primitive, and the conversion throws a TypeError. *)
Fixpoint to_string (v : value) : completion js_error string :=
  match v with
  | Undefined => Normal "undefined"
  | Null => Normal "null"
  | Bool true => Normal "true"
  | Bool false => Normal "false"
  | Number x => Normal (number_to_string x)
  | Str s => Normal s
  | Array xs =>
      (* Array.prototype.join(","): ToString of each element in order,
         null and undefined as "" *)
      let elem (x : value) :=
        match x with Undefined | Null => Normal "" | _ => to_string x end in
      (fix join (xs : list value) : completion js_error string :=
         match xs with
         | [] => Normal ""
         | [x] => elem x
         | x :: xs' => cbind (elem x) (fun s => cbind (join xs') (fun r => Normal (s +:+ "," +:+ r)))
         end) xs
  | Object ps =>
      if decide (obj_lookup ps "toString" = None) then Normal "[object Object]"
      else Throw (type_error (msg_to_primitive eng))
  end.

End Access.

(** ** Lemmas *)

Lemma get_prop_object eng ps k :
  get_prop eng (Object ps) k = Normal (default Undefined (obj_lookup ps k)).
Proof. reflexivity. Qed.




#[export] Hint Rewrite get_prop_object : jsm_rw.
