(* ===== verification/Json.v ===== *)
(** * The JSON text of the response body: [JSON.parse] and a printer

    [response.json()] (api.js line 6) reads the body text and applies
    [JSON.parse] to it.  [json_parse] is that parser (RFC 8259 / ECMA-404
    grammar) on the text as a list of 8-bit characters, with the
    insignificant whitespace, the escapes of strings and the syntax of
    numbers; [json_print] is a serializer in the manner of
    [JSON.stringify] (no whitespace, the short escapes, [\u00XX] for the
    other control characters), standing for the server that writes the
    body.

    The parser is a mutual fixpoint over fuel; [json_parse] gives it one
    unit per character of the input plus one: each nested call follows a
    consumed [[], [{], [,] or [:], so the fuel outlasts the text.  A number is read by the full grammar
    ([-], integer part, fraction, exponent) and rounded to the nearest
    double by [double_of_decimal] ([JsNumber]).

    Outside the model: [\u] escapes above [00FF] (strings hold 8-bit
    characters); the parser rejects them. *)

From S2P Require Import Prelude JsNumber JsRuntime.
From Stdlib Require Import Ascii SpecFloat.

Notation quote := "034"%char (only parsing).
Notation backslash := "092"%char (only parsing).

(** ** Lexical pieces *)

(** JSON's insignificant whitespace: space, tab, line feed, return. *)
Definition is_ws (c : ascii) : bool :=
  match nat_of_ascii c with 32 | 9 | 10 | 13 => true | _ => false end.

Fixpoint skip_ws (s : list ascii) : list ascii :=
  match s with
  | c :: r => if is_ws c then skip_ws r else s
  | [] => []
  end.

(** The remainder of [s] after the literal [w], if [s] starts with it. *)
Fixpoint strip_prefix (w s : list ascii) : option (list ascii) :=
  match w, s with
  | [], _ => Some s
  | c :: w', c' :: s' => if decide (c = c') then strip_prefix w' s' else None
  | _ :: _, [] => None
  end.

Definition digit_val (c : ascii) : option nat :=
  let n := nat_of_ascii c in
  if decide (48 <= n <= 57) then Some (n - 48) else None.

Definition hex_val (c : ascii) : option nat :=
  let n := nat_of_ascii c in
  if decide (48 <= n <= 57) then Some (n - 48)
  else if decide (97 <= n <= 102) then Some (n - 87)
  else if decide (65 <= n <= 70) then Some (n - 55)
  else None.

(** ** Numbers *)

(** The longest prefix of decimal digits, as digit values. *)
Fixpoint span_digits (s : list ascii) : list nat * list ascii :=
  match s with
  | c :: r =>
      match digit_val c with
      | Some d => let '(ds, r') := span_digits r in (d :: ds, r')
      | None => ([], s)
      end
  | [] => ([], [])
  end.

Definition digits_value (ds : list nat) : N :=
  foldl (fun acc d => acc * 10 + N.of_nat d)%N 0%N ds.

(** [frac = "." 1*DIGIT], when the text goes on with a point. *)
Definition parse_frac (s : list ascii) : option (list nat * list ascii) :=
  match s with
  | c :: r =>
      if decide (c = "."%char) then
        let '(fs, r') := span_digits r in
        if decide (fs = []) then None else Some (fs, r')
      else Some ([], s)
  | [] => Some ([], s)
  end.

(** [exp = ("e" | "E") ["-" | "+"] 1*DIGIT], when the text goes on with
    an [e]; the exponent's value. *)
Definition parse_exp (s : list ascii) : option (Z * list ascii) :=
  match s with
  | c :: r =>
      if decide (c = "e"%char \/ c = "E"%char) then
        let '(eneg, r1) :=
          match r with
          | c' :: r' =>
              if decide (c' = "-"%char) then (true, r')
              else if decide (c' = "+"%char) then (false, r') else (false, r)
          | [] => (false, r)
          end in
        let '(es, r2) := span_digits r1 in
        if decide (es = []) then None
        else let e := Z.of_N (digits_value es) in Some (if eneg then (- e)%Z else e, r2)
      else Some (0%Z, s)
  | [] => Some (0%Z, s)
  end.

(** [number = ["-"] int [frac] [exp]] with [int = "0" | [1-9] *DIGIT];
    its value [int.frac * 10^exp] rounded to the nearest double. *)
Definition parse_number (s : list ascii) : option (value * list ascii) :=
  let '(neg, s1) :=
    match s with
    | c :: r => if decide (c = "-"%char) then (true, r) else (false, s)
    | [] => (false, s)
    end in
  let '(ds, r) := span_digits s1 in
  match ds with
  | [] => None
  | d :: ds' =>
      if decide (d = 0 /\ ds' <> []) then None
      else
        '(fs, r2) ← parse_frac r;
        '(e, r3) ← parse_exp r2;
        Some (Number (double_of_decimal neg (Z.of_N (digits_value (ds ++ fs)))
                        (e - Z.of_nat (length fs))), r3)
  end.

(** ** Strings *)

(** The one-character escapes after a backslash. *)
Definition simple_unescape (e : ascii) : option ascii :=
  if decide (e = quote) then Some quote
  else if decide (e = backslash) then Some backslash
  else if decide (e = "/"%char) then Some "/"%char
  else if decide (e = "b"%char) then Some "008"%char
  else if decide (e = "f"%char) then Some "012"%char
  else if decide (e = "n"%char) then Some "010"%char
  else if decide (e = "r"%char) then Some "013"%char
  else if decide (e = "t"%char) then Some "009"%char
  else None.

(** The character of a [\uXXXX] escape. *)
Definition hex4 (h1 h2 h3 h4 : ascii) : option ascii :=
  a ← hex_val h1; b ← hex_val h2; c ← hex_val h3; d ← hex_val h4;
  let code := ((a * 16 + b) * 16 + c) * 16 + d in
  if decide (code < 256) then Some (ascii_of_nat code) else None.

(** The characters of a string literal up to its closing quote (the
    opening one is consumed); raw control characters are errors. *)
Fixpoint parse_chars (s : list ascii) : option (list ascii * list ascii) :=
  match s with
  | [] => None
  | c :: r =>
      if decide (c = quote) then Some ([], r)
      else if decide (c = backslash) then
        match r with
        | [] => None
        | e :: r1 =>
            match simple_unescape e with
            | Some c' => '(cs, r') ← parse_chars r1; Some (c' :: cs, r')
            | None =>
                if decide (e = "u"%char) then
                  match r1 with
                  | h1 :: h2 :: h3 :: h4 :: r2 =>
                      c' ← hex4 h1 h2 h3 h4;
                      '(cs, r') ← parse_chars r2; Some (c' :: cs, r')
                  | _ => None
                  end
                else None
            end
        end
      else if decide (nat_of_ascii c < 32) then None
      else '(cs, r') ← parse_chars r; Some (c :: cs, r')
  end.

(** ** Values *)

Fixpoint parse_value (fuel : nat) (s : list ascii) : option (value * list ascii) :=
  match fuel with
  | O => None
  | S f =>
      match skip_ws s with
      | [] => None
      | c :: r =>
          if decide (c = "n"%char) then
            r' ← strip_prefix (String.list_ascii_of_string "ull") r; Some (Null, r')
          else if decide (c = "t"%char) then
            r' ← strip_prefix (String.list_ascii_of_string "rue") r; Some (Bool true, r')
          else if decide (c = "f"%char) then
            r' ← strip_prefix (String.list_ascii_of_string "alse") r; Some (Bool false, r')
          else if decide (c = quote) then
            '(cs, r') ← parse_chars r; Some (Str (String.string_of_list_ascii cs), r')
          else if decide (c = "["%char) then
            match skip_ws r with
            | [] => None
            | c' :: r' =>
                if decide (c' = "]"%char) then Some (Array [], r')
                else '(xs, r'') ← parse_elems f r; Some (Array xs, r'')
            end
          else if decide (c = "{"%char) then
            match skip_ws r with
            | [] => None
            | c' :: r' =>
                if decide (c' = "}"%char) then Some (Object [], r')
                else '(ps, r'') ← parse_members f r; Some (Object ps, r'')
            end
          else parse_number (c :: r)
      end
  end
(** The elements of a non-empty array, through its closing bracket. *)
with parse_elems (fuel : nat) (s : list ascii) : option (list value * list ascii) :=
  match fuel with
  | O => None
  | S f =>
      '(v, r) ← parse_value f s;
      match skip_ws r with
      | [] => None
      | c :: r' =>
          if decide (c = ","%char) then '(vs, r'') ← parse_elems f r'; Some (v :: vs, r'')
          else if decide (c = "]"%char) then Some ([v], r')
          else None
      end
  end
(** The members of a non-empty object, through its closing brace. *)
with parse_members (fuel : nat) (s : list ascii)
  : option (list (string * value) * list ascii) :=
  match fuel with
  | O => None
  | S f =>
      match skip_ws s with
      | [] => None
      | c :: r =>
          if decide (c = quote) then
            '(k, r1) ← parse_chars r;
            match skip_ws r1 with
            | [] => None
            | c1 :: r2 =>
                if decide (c1 = ":"%char) then
                  '(v, r3) ← parse_value f r2;
                  match skip_ws r3 with
                  | [] => None
                  | c2 :: r4 =>
                      if decide (c2 = ","%char) then
                        '(ps, r5) ← parse_members f r4;
                        Some ((String.string_of_list_ascii k, v) :: ps, r5)
                      else if decide (c2 = "}"%char) then
                        Some ([(String.string_of_list_ascii k, v)], r4)
                      else None
                  end
                else None
            end
          else None
      end
  end.

(** [JSON.parse(text)]: one value, with only whitespace around it. *)
Definition json_parse (t : string) : option value :=
  let s := String.list_ascii_of_string t in
  '(v, r) ← parse_value (S (length s)) s;
  if decide (skip_ws r = []) then Some v else None.

(** ** The printer *)

Definition hex_digit (d : nat) : ascii :=
  if decide (d < 10) then ascii_of_nat (48 + d) else ascii_of_nat (87 + d).

Definition escape_char (c : ascii) : list ascii :=
  if decide (c = quote) then [backslash; quote]
  else if decide (c = backslash) then [backslash; backslash]
  else if decide (c = "008"%char) then [backslash; "b"%char]
  else if decide (c = "012"%char) then [backslash; "f"%char]
  else if decide (c = "010"%char) then [backslash; "n"%char]
  else if decide (c = "013"%char) then [backslash; "r"%char]
  else if decide (c = "009"%char) then [backslash; "t"%char]
  else if decide (nat_of_ascii c < 32) then
    [backslash; "u"%char; "0"%char; "0"%char;
     hex_digit (nat_of_ascii c / 16); hex_digit (nat_of_ascii c mod 16)]
  else [c].

Definition print_string (s : string) : list ascii :=
  quote :: flat_map escape_char (String.list_ascii_of_string s) ++ [quote].

(** [JSON.stringify] prints a finite number by Number::toString and
    the others as [null]. *)
Definition print_number (x : spec_float) : list ascii :=
  match x with
  | S754_zero _ | S754_finite _ _ _ => String.list_ascii_of_string (number_to_string x)
  | _ => String.list_ascii_of_string "null"
  end.

Fixpoint join_with (sep : ascii) (xs : list (list ascii)) : list ascii :=
  match xs with
  | [] => []
  | [x] => x
  | x :: xs' => x ++ sep :: join_with sep xs'
  end.

Fixpoint print_value (v : value) : list ascii :=
  match v with
  | Undefined | Null => String.list_ascii_of_string "null"
  | Bool true => String.list_ascii_of_string "true"
  | Bool false => String.list_ascii_of_string "false"
  | Number x => print_number x
  | Str s => print_string s
  | Array xs => "["%char :: join_with ","%char (map print_value xs) ++ ["]"%char]
  | Object ps =>
      "{"%char :: join_with ","%char
        (map (fun kv => print_string kv.1 ++ ":"%char :: print_value kv.2) ps)
        ++ ["}"%char]
  end.

Definition json_print (v : value) : string := String.string_of_list_ascii (print_value v).

(** ** Examples *)

(** What [JSON.parse] and a template literal make of some numbers: the
    nearest double, printed back as its shortest decimal. *)
Example json_number_text :
  to_string v8 <$> json_parse "[0.1, 1e21, -0, 9007199254740993, 1.5e-7, 1E400, 12.50, -2e-1]" =
  Some (Normal "0.1,1e+21,0,9007199254740992,1.5e-7,Infinity,12.5,-0.2").
Proof. vm_compute. reflexivity. Qed.

(** Texts the grammar of numbers rejects. *)
Example json_number_rejects :
  Forall (fun t => json_parse t = None) ["01"; "1."; "1e"; "1e+"; "-"; ".5"; "+1"; "1.e5"].
Proof. repeat constructor. Qed.
