(* ===== verification/Document.v ===== *)
(** * The DOM as a heap of elements

    The part of the DOM the widget uses: elements with a tag, an [id]
    attribute, a class list, children and a parent link, stored in a heap
    [gmap positive element] with an allocator [doc_next].  A child is an
    element node or a markup fragment: assigning [innerHTML] replaces the
    children by the assigned source text (one [NMarkup], none for the empty
    string); how that text tokenizes is the subject of [Html].  The
    operations are the DOM methods the code calls: [createElement], the
    [innerHTML] setter, [classList.add], [appendChild] (the pre-insertion
    check that the node is not the parent or one of its ancestors, which
    throws a HierarchyRequestError, then removal from the old parent and
    insertion) and [getElementById] (preorder walk from the root).  Calls on a
    [null] receiver throw the engine's TypeError.  [wf] is the heap
    invariant: allocated ids are below [doc_next], every element child
    points back to its parent and the other way round, and no child list
    holds a node twice; every operation preserves it. *)

From S2P Require Import Prelude JsRuntime.

(** ** Data *)

Inductive child : Type :=
| NElem (n : positive)
| NMarkup (html : string).

#[export] Instance child_eq_dec : EqDecision child.
Proof. solve_decision. Defined.

Record element : Type := mkElement {
  el_tag : string;
  el_id : option string;
  el_classes : list string;
  el_children : list child;
  el_parent : option positive
}.

Record document : Type := mkDocument {
  doc_nodes : gmap positive element;
  doc_next : positive;
  doc_root : positive
}.

Definition set_children (cs : list child) (e : element) : element :=
  mkElement (el_tag e) (el_id e) (el_classes e) cs (el_parent e).
Definition set_parent (p : option positive) (e : element) : element :=
  mkElement (el_tag e) (el_id e) (el_classes e) (el_children e) p.
Definition set_classes (cls : list string) (e : element) : element :=
  mkElement (el_tag e) (el_id e) cls (el_children e) (el_parent e).

Definition with_nodes (d : document) (m : gmap positive element) : document :=
  mkDocument m (doc_next d) (doc_root d).

(** The children an [innerHTML] assignment installs. *)
Definition markup_children (html : string) : list child :=
  if decide (html = "") then [] else [NMarkup html].

(** A freshly created element. *)
Definition fresh_element (tag : string) : element :=
  mkElement tag None [] [] None.

(** ** Pure heap updates *)

(** Clear the parent link of every element among [cs]. *)
Fixpoint detach_all (cs : list child) (m : gmap positive element)
  : gmap positive element :=
  match cs with
  | [] => m
  | NElem k :: cs' => detach_all cs' (alter (set_parent None) k m)
  | NMarkup _ :: cs' => detach_all cs' m
  end.

Definition map_children (g : list child -> list child) (e : element) : element :=
  set_children (g (el_children e)) e.

Definition remove_child (c : positive) : element -> element :=
  map_children (filter (fun x => x <> NElem c)).

Definition add_child (c : positive) : element -> element :=
  map_children (fun cs => cs ++ [NElem c]).

(** Remove [c] from its parent, if it has one. *)
Definition detach (c : positive) (m : gmap positive element)
  : gmap positive element :=
  match m !! c with
  | Some ec =>
      match el_parent ec with
      | Some q => alter (set_parent None) c (alter (remove_child c) q m)
      | None => m
      end
  | None => m
  end.

(** Insert the parentless [c] as the last child of [p]. *)
(** Whether [c] is [p] or one of its ancestors: the walk up the parent
    links from [p], with one step per node of the heap. *)
Fixpoint inclusive_ancestor (fuel : nat) (m : gmap positive element) (c p : positive) : bool :=
  match fuel with
  | O => false
  | S f =>
      if decide (p = c) then true
      else match m !! p with
           | Some e => match el_parent e with
                       | Some q => inclusive_ancestor f m c q
                       | None => false
                       end
           | None => false
           end
  end.

Definition attach (p c : positive) (m : gmap positive element)
  : gmap positive element :=
  alter (set_parent (Some p)) c (alter (add_child c) p m).

Definition add_class (c : string) (e : element) : element :=
  if decide (c ∈ el_classes e) then e else set_classes (el_classes e ++ [c]) e.

Definition dom (A : Type) : Type := st document js_error A.

Section Operations.
Context (eng : engine).

(** [document.createElement(tag)] *)
Definition create_element (tag : string) : dom positive :=
  fun d =>
    let n := doc_next d in
    (Normal n, mkDocument (<[n := fresh_element tag]> (doc_nodes d))
                          (Pos.succ n) (doc_root d)).

(** [target.innerHTML = html]; [target] is [null] when [None]. *)
Definition set_inner_html (target : option positive) (html : string) : dom unit :=
  match target with
  | None => throw (type_error (msg_set_prop eng "null" "innerHTML"))
  | Some n =>
      fun d =>
        match doc_nodes d !! n with
        | Some e =>
            (Normal tt,
             with_nodes d (alter (set_children (markup_children html)) n
                                 (detach_all (el_children e) (doc_nodes d))))
        | None => (Normal tt, d)
        end
  end.

(** [node.classList.add(c)]: DOMTokenList keeps each token once. *)
Definition class_list_add (n : positive) (c : string) : dom unit :=
  modify (fun d => with_nodes d (alter (add_class c) n (doc_nodes d))).

(** [parent.appendChild(c)]: reading [appendChild] of [null] throws. *)
Definition append_child (parent : option positive) (c : positive) : dom unit :=
  match parent with
  | None => throw (type_error (msg_read_prop eng "null" "appendChild"))
  | Some p => fun d =>
      (* pre-insertion validity: [c] may not be [p] or an ancestor of [p] *)
      if inclusive_ancestor (S (size (doc_nodes d))) (doc_nodes d) c p
      then throw (hierarchy_error (msg_hierarchy eng)) d
      else modify (fun d => with_nodes d (attach p c (detach c (doc_nodes d)))) d
  end.

End Operations.

(** [document.getElementById(id)]: the first element in preorder from the
    root whose [id] attribute is [id]. *)
Fixpoint find_by_id (fuel : nat) (m : gmap positive element) (id : string)
    (n : positive) : option positive :=
  match fuel with
  | O => None
  | S fuel' =>
      match m !! n with
      | None => None
      | Some e =>
          if decide (el_id e = Some id) then Some n
          else
            (fix go (cs : list child) : option positive :=
               match cs with
               | [] => None
               | NElem k :: cs' =>
                   match find_by_id fuel' m id k with
                   | Some r => Some r
                   | None => go cs'
                   end
               | NMarkup _ :: cs' => go cs'
               end) (el_children e)
      end
  end.

Definition get_element_by_id (d : document) (id : string) : option positive :=
  find_by_id (S (size (doc_nodes d))) (doc_nodes d) id (doc_root d).

(** ** The heap invariant *)

(** The child list and the parent link of node [n], when it exists. *)
Definition children_of (m : gmap positive element) (n : positive)
  : option (list child) := el_children <$> m !! n.
Definition parent_of (m : gmap positive element) (n : positive)
  : option (option positive) := el_parent <$> m !! n.

(** Parent and child links agree, and child lists are duplicate-free. *)
Record heap_ok (m : gmap positive element) : Prop := {
  ho_down : forall n cs k, children_of m n = Some cs -> NElem k ∈ cs ->
            parent_of m k = Some (Some n);
  ho_up : forall k p, parent_of m k = Some (Some p) ->
          exists cs, children_of m p = Some cs /\ NElem k ∈ cs;
  ho_nodup : forall n cs, children_of m n = Some cs -> NoDup cs
}.

(** The allocator is ahead of every allocated id. *)
Definition fresh_ok (d : document) : Prop :=
  forall n, is_Some (doc_nodes d !! n) -> (n < doc_next d)%positive.

Definition wf (d : document) : Prop := heap_ok (doc_nodes d) /\ fresh_ok d.

(** [n] is an element of the document. *)
Definition in_doc (d : document) (n : positive) : Prop :=
  is_Some (doc_nodes d !! n).

(** ** Heap lemmas *)

(** [heap_ok] only looks at the two projections. *)
Lemma heap_ok_ext m m' :
  (forall k, children_of m' k = children_of m k) ->
  (forall k, parent_of m' k = parent_of m k) ->
  heap_ok m -> heap_ok m'.
Proof.
  intros Hc Hp [Hd Hu Hn]. split.
  - intros n cs k. rewrite Hc, Hp. eauto.
  - intros k p. rewrite Hp. setoid_rewrite Hc. eauto.
  - intros n cs. rewrite Hc. eauto.
Qed.

Lemma children_of_alter f n m k :
  children_of (alter f n m) k =
  if decide (n = k) then (fun e => el_children (f e)) <$> m !! k
  else children_of m k.
Proof.
  unfold children_of. rewrite lookup_alter.
  case_decide; subst; [by destruct (m !! k)|done].
Qed.

Lemma parent_of_alter f n m k :
  parent_of (alter f n m) k =
  if decide (n = k) then (fun e => el_parent (f e)) <$> m !! k
  else parent_of m k.
Proof.
  unfold parent_of. rewrite lookup_alter.
  case_decide; subst; [by destruct (m !! k)|done].
Qed.

Lemma children_of_detach_all cs m k :
  children_of (detach_all cs m) k = children_of m k.
Proof.
  revert m. induction cs as [|[j|h] cs IH]; intros m; simpl; [done| |done].
  rewrite IH, children_of_alter. case_decide; subst; [|done].
  unfold children_of. by destruct (m !! k).
Qed.

Lemma parent_of_detach_all cs m k :
  parent_of (detach_all cs m) k =
  if decide (NElem k ∈ cs) then (fun _ => None) <$> parent_of m k
  else parent_of m k.
Proof.
  revert m. induction cs as [|[j|h] cs IH]; intros m; simpl.
  - repeat case_decide; first [done | set_solver].
  - rewrite IH, parent_of_alter. unfold parent_of.
    destruct (decide (j = k)) as [->|Hne], (m !! k); simpl;
      repeat case_decide; set_solver.
  - rewrite IH. repeat case_decide; set_solver.
Qed.

Lemma heap_ok_alter_links f n m :
  (forall e, el_children (f e) = el_children e /\ el_parent (f e) = el_parent e) ->
  heap_ok m -> heap_ok (alter f n m).
Proof.
  intros Hf. apply heap_ok_ext; intros k.
  - rewrite children_of_alter. case_decide; [|done].
    unfold children_of. destruct (m !! k); simpl; [by rewrite (proj1 (Hf _))|done].
  - rewrite parent_of_alter. case_decide; [|done].
    unfold parent_of. destruct (m !! k); simpl; [by rewrite (proj2 (Hf _))|done].
Qed.

(** Inserting at a free id an element with no parent and no element
    child keeps the links consistent. *)
Lemma heap_ok_insert_detached m n x :
  m !! n = None -> el_parent x = None -> (forall k, NElem k ∉ el_children x) ->
  NoDup (el_children x) -> heap_ok m -> heap_ok (<[n := x]> m).
Proof.
  intros Hfresh Hxp Hxc Hxn [Hd Hu Hn].
  assert (Hc : forall k, children_of (<[n := x]> m) k =
                    if decide (n = k) then Some (el_children x) else children_of m k).
  { intros k. unfold children_of. rewrite lookup_insert. by case_decide. }
  assert (Hp : forall k, parent_of (<[n := x]> m) k =
                    if decide (n = k) then Some (el_parent x) else parent_of m k).
  { intros k. unfold parent_of. rewrite lookup_insert. by case_decide. }
  assert (Hnone : forall k, n = k -> children_of m k = None /\ parent_of m k = None).
  { intros k <-. unfold children_of, parent_of. by rewrite Hfresh. }
  split.
  - intros n' cs k. rewrite Hc, Hp. intros H1 H2.
    destruct (decide (n = n')) as [<-|Hne1]; [simplify_eq; by destruct (Hxc k)|].
    pose proof (Hd _ _ _ H1 H2) as B.
    destruct (decide (n = k)) as [<-|]; [|done].
    by rewrite (proj2 (Hnone n eq_refl)) in B.
  - intros k p. rewrite Hp. setoid_rewrite Hc. intros H.
    destruct (decide (n = k)) as [<-|]; [congruence|].
    destruct (Hu _ _ H) as (cs & H1 & H2). exists cs.
    destruct (decide (n = p)) as [<-|]; [|done].
    by rewrite (proj1 (Hnone n eq_refl)) in H1.
  - intros n' cs. rewrite Hc. destruct (decide (n = n')); intros; simplify_eq; eauto.
Qed.

Lemma heap_ok_insert_fresh m n tag :
  m !! n = None -> heap_ok m -> heap_ok (<[n := fresh_element tag]> m).
Proof.
  intros. apply heap_ok_insert_detached; simpl; try done; [set_solver|constructor].
Qed.

Lemma children_of_map_children g n m k :
  children_of (alter (map_children g) n m) k =
  if decide (n = k) then g <$> children_of m k else children_of m k.
Proof.
  rewrite children_of_alter. case_decide; [|done].
  unfold children_of. by destruct (m !! k).
Qed.

Lemma children_of_set_children cs n m k :
  children_of (alter (set_children cs) n m) k =
  if decide (n = k) then (fun _ => cs) <$> children_of m k else children_of m k.
Proof. apply (children_of_map_children (fun _ => cs)). Qed.

Lemma parent_of_map_children g n m k :
  parent_of (alter (map_children g) n m) k = parent_of m k.
Proof.
  rewrite parent_of_alter. case_decide; subst; [|done].
  unfold parent_of. by destruct (m !! k).
Qed.

Lemma parent_of_set_children cs n m k :
  parent_of (alter (set_children cs) n m) k = parent_of m k.
Proof. apply (parent_of_map_children (fun _ => cs)). Qed.

Lemma children_of_set_parent p n m k :
  children_of (alter (set_parent p) n m) k = children_of m k.
Proof.
  rewrite children_of_alter. case_decide; subst; [|done].
  unfold children_of. by destruct (m !! k).
Qed.

Lemma parent_of_set_parent p n m k :
  parent_of (alter (set_parent p) n m) k =
  if decide (n = k) then (fun _ => p) <$> parent_of m k else parent_of m k.
Proof.
  rewrite parent_of_alter. case_decide; [|done].
  unfold parent_of. by destruct (m !! k).
Qed.

#[export] Hint Rewrite children_of_map_children children_of_set_children
  parent_of_map_children parent_of_set_children children_of_set_parent
  parent_of_set_parent children_of_detach_all parent_of_detach_all : jsm_rw.

Lemma markup_children_no_elem html k : NElem k ∉ markup_children html.
Proof. unfold markup_children. case_decide; set_solver. Qed.

Lemma markup_children_nodup html : NoDup (markup_children html).
Proof. unfold markup_children. case_decide; repeat constructor; set_solver. Qed.

(** The [innerHTML] setter keeps the links consistent: the old element
    children lose their parent, the new children hold no element. *)
Lemma heap_ok_set_inner m n cs html :
  children_of m n = Some cs -> heap_ok m ->
  heap_ok (alter (set_children (markup_children html)) n (detach_all cs m)).
Proof.
  intros Hn [Hd Hu Hnd].
  pose proof (markup_children_no_elem html).
  split.
  - intros n' cs' k H1 H2. autorewrite with jsm_rw in H1 |- *.
    destruct (decide (n = n')) as [<-|Hne].
    + rewrite Hn in H1. simplify_eq/=. set_solver.
    + destruct (decide (NElem k ∈ cs)) as [Hin|Hnin]; [|eauto].
      pose proof (Hd _ _ _ Hn Hin) as A. pose proof (Hd _ _ _ H1 H2) as B.
      rewrite A in B. congruence.
  - intros k p Hpk. autorewrite with jsm_rw in Hpk.
    destruct (decide (NElem k ∈ cs)) as [Hin|Hnin].
    { destruct (parent_of m k); simpl in *; congruence. }
    destruct (Hu _ _ Hpk) as (cs' & H1 & H2). exists cs'.
    autorewrite with jsm_rw.
    destruct (decide (n = p)) as [<-|]; [|done]. rewrite Hn in H1. simplify_eq. contradiction.
  - intros n' cs' H1. autorewrite with jsm_rw in H1.
    destruct (decide (n = n')) as [<-|]; [|eauto]. rewrite Hn in H1. simplify_eq/=.
    apply markup_children_nodup.
Qed.


(** Removing [c] from its parent keeps the links consistent and leaves [c]
    parentless. *)
Lemma heap_ok_detach m c :
  heap_ok m -> heap_ok (detach c m).
Proof.
  intros Hok. unfold detach, remove_child.
  destruct (m !! c) as [ec|] eqn:Ec; [|done].
  destruct (el_parent ec) as [q|] eqn:Pc; [|done].
  assert (Hpc : parent_of m c = Some (Some q)) by (unfold parent_of; rewrite Ec; simpl; by rewrite Pc).
  destruct Hok as [Hd Hu Hnd]. split.
  - intros n' cs' k H1 H2. autorewrite with jsm_rw in H1 |- *.
    destruct (decide (q = n')) as [<-|Hne].
    + destruct (children_of m q) as [cs0|] eqn:Cq; simplify_eq/=.
      apply list_elem_of_filter in H2 as [Hkc H2].
      rewrite decide_False by congruence. eauto.
    + pose proof (Hd _ _ _ H1 H2) as B.
      destruct (decide (c = k)) as [<-|]; [congruence|done].
  - intros k p Hpk. autorewrite with jsm_rw in Hpk.
    destruct (decide (c = k)) as [<-|Hck].
    { rewrite Hpc in Hpk. simplify_eq/=. }
    destruct (Hu _ _ Hpk) as (cs' & H1 & H2). autorewrite with jsm_rw.
    destruct (decide (q = p)) as [<-|]; [|eauto].
    rewrite H1. eexists; split; [done|]. apply list_elem_of_filter. split; [congruence|done].
  - intros n' cs' H1. autorewrite with jsm_rw in H1.
    destruct (decide (q = n')) as [<-|]; [|eauto].
    destruct (children_of m q) eqn:Cq; simplify_eq/=. apply NoDup_filter. eauto.
Qed.

Lemma detach_parent m c :
  is_Some (m !! c) -> parent_of (detach c m) c = Some None.
Proof.
  unfold detach, parent_of. intros [ec Ec]. rewrite Ec.
  destruct (el_parent ec) as [q|] eqn:Pc; [|by rewrite Ec; simpl; rewrite Pc].
  rewrite lookup_alter_eq.
  destruct (lookup_alter_is_Some (remove_child c) m q c) as [_ [x Hx]]; [by eexists|].
  by rewrite Hx.
Qed.

Lemma detach_is_Some m c k :
  is_Some (detach c m !! k) <-> is_Some (m !! k).
Proof.
  unfold detach. destruct (m !! c) as [ec|]; [|done].
  destruct (el_parent ec); [|done]. by rewrite !lookup_alter_is_Some.
Qed.

(** Inserting a parentless node under an existing parent keeps the links
    consistent. *)
Lemma heap_ok_attach m p c :
  heap_ok m -> parent_of m c = Some None -> is_Some (m !! p) ->
  heap_ok (attach p c m).
Proof.
  intros [Hd Hu Hnd] Hc [ep Ep]. unfold attach, add_child.
  assert (Cp : children_of m p = Some (el_children ep))
    by (unfold children_of; by rewrite Ep).
  split.
  - intros n' cs' k H1 H2. autorewrite with jsm_rw in H1 |- *.
    destruct (decide (c = k)) as [<-|Hck].
    { rewrite Hc. destruct (decide (p = n')) as [<-|Hne]; [done|].
      pose proof (Hd _ _ _ H1 H2). congruence. }
    destruct (decide (p = n')) as [<-|Hne]; [|eauto].
    rewrite Cp in H1. simplify_eq/=. apply elem_of_app in H2 as [H2|H2]; [eauto|set_solver].
  - intros k p' Hpk. autorewrite with jsm_rw in Hpk |- *.
    destruct (decide (c = k)) as [<-|Hck].
    { rewrite Hc in Hpk. simplify_eq/=. rewrite decide_True, Cp by done.
      eexists; split; [done|set_solver]. }
    destruct (Hu _ _ Hpk) as (cs' & H1 & H2). rewrite H1.
    case_decide; simpl; eexists; (split; [done|set_solver]).
  - intros n' cs' H1. autorewrite with jsm_rw in H1.
    destruct (decide (p = n')) as [<-|]; [|eauto].
    rewrite Cp in H1. simplify_eq/=. apply NoDup_app. split_and!; [eauto| |by apply NoDup_singleton].
    intros x Hx ->%list_elem_of_singleton. pose proof (Hd _ _ _ Cp Hx). congruence.
Qed.

(** ** Every DOM operation preserves [wf] *)

Lemma children_of_is_Some m k : is_Some (children_of m k) <-> is_Some (m !! k).
Proof. unfold children_of. apply fmap_is_Some. Qed.

Lemma detach_all_is_Some cs m k :
  is_Some (detach_all cs m !! k) <-> is_Some (m !! k).
Proof. rewrite <- !children_of_is_Some. by rewrite children_of_detach_all. Qed.

Lemma fresh_ok_with_nodes d m :
  (forall k, is_Some (m !! k) -> is_Some (doc_nodes d !! k)) ->
  fresh_ok d -> fresh_ok (with_nodes d m).
Proof. intros Hm Hf k Hk. apply Hf, Hm, Hk. Qed.

Section WfOps.
Context (eng : engine).

Lemma create_element_wf tag d :
  wf d -> wf (snd (create_element tag d)).
Proof.
  intros [Hok Hf]. assert (Hn : doc_nodes d !! doc_next d = None).
  { apply eq_None_not_Some. intros Hs. specialize (Hf _ Hs). lia. }
  split; simpl.
  - by apply heap_ok_insert_fresh.
  - intros k. simpl. rewrite lookup_insert_is_Some.
    intros [<-|[_ Hk]]; [lia|]. specialize (Hf _ Hk). lia.
Qed.

Lemma create_element_in_doc tag d k :
  in_doc d k -> in_doc (snd (create_element tag d)) k.
Proof. unfold in_doc. simpl. rewrite lookup_insert_is_Some. destruct (decide (doc_next d = k)); tauto. Qed.

Lemma set_inner_html_wf n html d :
  wf d -> wf (snd (set_inner_html eng (Some n) html d)).
Proof.
  intros [Hok Hf]. simpl. destruct (doc_nodes d !! n) as [e|] eqn:En; [|done].
  split; simpl.
  - apply heap_ok_set_inner; [|done]. unfold children_of. by rewrite En.
  - apply fresh_ok_with_nodes; [|done]. intros k.
    by rewrite lookup_alter_is_Some, detach_all_is_Some.
Qed.

Lemma set_inner_html_in_doc n html d k :
  in_doc d k -> in_doc (snd (set_inner_html eng (Some n) html d)) k.
Proof.
  unfold in_doc. simpl. destruct (doc_nodes d !! n); [|done]. simpl.
  by rewrite lookup_alter_is_Some, detach_all_is_Some.
Qed.

Lemma class_list_add_wf n c d :
  wf d -> wf (snd (class_list_add n c d)).
Proof.
  intros [Hok Hf]. split; simpl.
  - apply heap_ok_alter_links; [|done]. intros e. unfold add_class. by case_decide.
  - apply fresh_ok_with_nodes; [|done]. intros k. by rewrite lookup_alter_is_Some.
Qed.

Lemma class_list_add_in_doc n c d k :
  in_doc d k -> in_doc (snd (class_list_add n c d)) k.
Proof. unfold in_doc. simpl. by rewrite lookup_alter_is_Some. Qed.

Lemma append_child_wf p c d :
  wf d -> in_doc d p -> in_doc d c -> wf (snd (append_child eng (Some p) c d)).
Proof.
  intros [Hok Hf] Hp Hc. simpl. case_match; [done|]. split; simpl.
  - apply heap_ok_attach; [by apply heap_ok_detach|by apply detach_parent|].
    by apply detach_is_Some.
  - apply fresh_ok_with_nodes; [|done]. intros k. unfold attach.
    by rewrite !lookup_alter_is_Some, detach_is_Some.
Qed.

Lemma append_child_in_doc p c d k :
  in_doc d k -> in_doc (snd (append_child eng (Some p) c d)) k.
Proof.
  unfold in_doc. simpl. case_match; [done|]. simpl. unfold attach. by rewrite !lookup_alter_is_Some, detach_is_Some.
Qed.

End WfOps.

(** In a well-formed document no node is a child of the next fresh id. *)
Lemma wf_next_childless d :
  wf d -> forall k ek, doc_nodes d !! k = Some ek -> el_parent ek <> Some (doc_next d).
Proof.
  intros [Hok Hf] k ek Hk Hp.
  destruct (ho_up _ Hok k (doc_next d)) as (cs & Hcs & _).
  { unfold parent_of. by rewrite Hk, <- Hp. }
  unfold children_of in Hcs. apply fmap_Some in Hcs as (en & En & _).
  specialize (Hf (doc_next d) ltac:(by eexists)). lia.
Qed.

(** ** The operations on a node just inserted *)

Section FreshOps.
Context (eng : engine).

Lemma create_element_eq tag d :
  create_element tag d =
  (Normal (doc_next d),
   mkDocument (<[doc_next d := fresh_element tag]> (doc_nodes d))
              (Pos.succ (doc_next d)) (doc_root d)).
Proof. reflexivity. Qed.

Lemma class_list_add_inserted n cl e m nx r :
  class_list_add n cl (mkDocument (<[n := e]> m) nx r) =
  (Normal tt, mkDocument (<[n := add_class cl e]> m) nx r).
Proof. unfold class_list_add, modify, with_nodes. simpl. by rewrite alter_insert_eq. Qed.

Lemma set_inner_html_inserted n html e m nx r :
  el_children e = [] ->
  set_inner_html eng (Some n) html (mkDocument (<[n := e]> m) nx r) =
  (Normal tt, mkDocument (<[n := set_children (markup_children html) e]> m) nx r).
Proof.
  intros He. simpl. rewrite lookup_insert_eq, He. simpl.
  unfold with_nodes. simpl. by rewrite alter_insert_eq.
Qed.

(** No parent link of [m] reaches a node [n] of which no node is a child:
    [n] is no ancestor of any other node. *)
Lemma inclusive_ancestor_childless f m n p e :
  p <> n -> (forall k ek, m !! k = Some ek -> el_parent ek <> Some n) ->
  inclusive_ancestor f (<[n := e]> m) n p = false.
Proof.
  intros Hp Hm. revert p Hp. induction f as [|f IH]; intros p Hp; [done|]. simpl.
  rewrite decide_False by done. rewrite lookup_insert_ne by done.
  destruct (m !! p) as [ep|] eqn:Ep; [|done].
  destruct (el_parent ep) as [q|] eqn:Eq; [|done].
  apply IH. intros ->. by apply (Hm p ep).
Qed.

Lemma append_child_inserted p n e m nx r :
  el_parent e = None -> p <> n -> (forall k ek, m !! k = Some ek -> el_parent ek <> Some n) ->
  append_child eng (Some p) n (mkDocument (<[n := e]> m) nx r) =
  (Normal tt, mkDocument (<[n := set_parent (Some p) e]> (alter (add_child n) p m)) nx r).
Proof.
  intros He Hp Hm. unfold append_child. cbn [doc_nodes].
  rewrite inclusive_ancestor_childless by done.
  unfold modify, with_nodes, attach, detach. simpl.
  rewrite lookup_insert_eq, He. by rewrite alter_insert_ne, alter_insert_eq.
Qed.

(** The [innerHTML] setter on an element: its children become the markup,
    its former element children lose their parent, nothing else moves. *)
Lemma set_inner_html_elem n html d :
  in_doc d n ->
  exists d', set_inner_html eng (Some n) html d = (Normal tt, d') /\
    children_of (doc_nodes d') n = Some (markup_children html) /\
    doc_next d' = doc_next d /\
    (forall k, in_doc d' k <-> in_doc d k) /\
    (forall k cs, children_of (doc_nodes d) n = Some cs -> k <> n -> NElem k ∉ cs ->
       doc_nodes d' !! k = doc_nodes d !! k).
Proof.
  intros [e En]. simpl. rewrite En. eexists; split; [done|]. simpl.
  split_and!.
  - unfold children_of. rewrite lookup_alter_eq.
    pose proof (proj2 (detach_all_is_Some (el_children e) (doc_nodes d) n) ltac:(by eexists))
      as [x Hx].
    by rewrite Hx.
  - done.
  - intros k. unfold in_doc. simpl. by rewrite lookup_alter_is_Some, detach_all_is_Some.
  - intros k cs Hcs Hkn Hk. unfold children_of in Hcs. rewrite En in Hcs. simplify_eq/=.
    rewrite lookup_alter_ne by done.
    assert (Hp : forall m, detach_all (el_children e) m !! k = m !! k).
    { clear -Hk. induction (el_children e) as [|[j|h] cs IH]; intros m; simpl; [done| |].
      - rewrite IH, lookup_alter_ne; set_solver.
      - apply IH. set_solver. }
    apply Hp.
Qed.

End FreshOps.

#[export] Hint Resolve create_element_wf set_inner_html_wf class_list_add_wf
  append_child_wf create_element_in_doc set_inner_html_in_doc
  class_list_add_in_doc append_child_in_doc : jsm.

(** ** The page main.js expects

    A [body] (1) holding the button [#loadUsersBtn] (2) and the empty
    container [#usersContainer] (3); used by the examples. *)
Definition sample_page : document :=
  mkDocument
    (list_to_map
       [(1%positive, mkElement "body" None [] [NElem 2; NElem 3] None);
        (2%positive, mkElement "button" (Some "loadUsersBtn") [] [NMarkup "Load users"]
                               (Some 1%positive));
        (3%positive, mkElement "div" (Some "usersContainer") [] [] (Some 1%positive))])
    4 1.

(** ** [wf] is decidable *)

(** The local conditions at one node: its element children point back to
    it, its parent lists it, its child list has no duplicate. *)
Definition node_ok (m : gmap positive element) (n : positive) (e : element) : Prop :=
  Forall (fun c => match c with
                   | NElem k => parent_of m k = Some (Some n)
                   | NMarkup _ => True
                   end) (el_children e) /\
  match el_parent e with
  | Some p => match children_of m p with
              | Some cs => NElem n ∈ cs
              | None => False
              end
  | None => True
  end /\
  NoDup (el_children e).

#[export] Instance node_ok_dec m n e : Decision (node_ok m n e).
Proof.
  unfold node_ok. apply and_dec; [apply Forall_dec; intros [k|h]; apply _|].
  apply and_dec; [|apply _].
  destruct (el_parent e) as [p|]; [|apply _]. destruct (children_of m p); apply _.
Defined.

Lemma heap_ok_iff m : heap_ok m <-> map_Forall (node_ok m) m.
Proof.
  split.
  - intros [Hd Hu Hn] n e En. assert (Cn : children_of m n = Some (el_children e))
      by (unfold children_of; by rewrite En).
    split_and!.
    + apply Forall_forall. intros [k|h] Hk; [|done]. eauto.
    + destruct (el_parent e) as [p|] eqn:Pe; [|done].
      assert (parent_of m n = Some (Some p)) as Hp by (unfold parent_of; by rewrite En; simpl; rewrite Pe).
      destruct (Hu _ _ Hp) as (cs & -> & ?). done.
    + eauto.
  - intros H. split.
    + intros n cs k Cn Hk. unfold children_of in Cn.
      destruct (m !! n) as [e|] eqn:En; simplify_eq/=.
      destruct (H _ _ En) as [Hf _]. rewrite Forall_forall in Hf. apply (Hf _ Hk).
    + intros k p Hp. unfold parent_of in Hp.
      destruct (m !! k) as [ek|] eqn:Ek; simplify_eq/=.
      destruct (H _ _ Ek) as (_ & Hpar & _). rewrite Hp in Hpar.
      destruct (children_of m p); [eauto|done].
    + intros n cs Cn. unfold children_of in Cn.
      destruct (m !! n) as [e|] eqn:En; simplify_eq/=. by destruct (H _ _ En) as (_ & _ & ?).
Qed.

Lemma fresh_ok_iff d :
  fresh_ok d <-> map_Forall (fun n (_ : element) => (n < doc_next d)%positive) (doc_nodes d).
Proof.
  split.
  - intros Hf n e En. apply Hf. by eexists.
  - intros Hf n [e En]. by apply (Hf n e).
Qed.

#[export] Instance wf_dec d : Decision (wf d).
Proof.
  refine (decide_by_iff
            (map_Forall (node_ok (doc_nodes d)) (doc_nodes d) /\
             map_Forall (fun n (_ : element) => (n < doc_next d)%positive) (doc_nodes d)) _ _).
  unfold wf. by rewrite heap_ok_iff, fresh_ok_iff.
Defined.

#[export] Instance in_doc_dec d n : Decision (in_doc d n).
Proof. unfold in_doc. apply _. Defined.

(** ** [getElementById] finds an element with that id *)

Lemma find_by_id_sound fuel m id n r :
  find_by_id fuel m id n = Some r ->
  exists e, m !! r = Some e /\ el_id e = Some id.
Proof.
  revert n. induction fuel as [|fuel IH]; intros n; simpl; [done|].
  destruct (m !! n) as [e|] eqn:En; [|done].
  case_decide; [intros [=<-]; eauto|].
  induction (el_children e) as [|[k|h] cs IHcs]; [done| |done].
  destruct (find_by_id fuel m id k) eqn:Ek; [intros [=<-]; eauto|done].
Qed.

Lemma get_element_by_id_in_doc d id n :
  get_element_by_id d id = Some n -> in_doc d n.
Proof.
  unfold get_element_by_id, in_doc. intros H.
  destruct (find_by_id_sound _ _ _ _ _ H) as (e & He & _). by eexists.
Qed.
