(* ===== verification/Dom.v ===== *)
(** * dom.js: [displayUsers] and [displayError]

    [displayUsers(users, container)] clears the container, then runs the
    [forEach] callback [render_user] on each user: create a [div], add the
    class [user-card], evaluate the template [card_html] (which reads
    [user.name], [user.email], [user.address] and its [city], converts
    each substitution by ToString right after reading it, and may
    throw), assign it to the card's [innerHTML] and append the card to
    the container.  [displayError(message, container)] assigns the red
    paragraph [error_html] of the converted message to the container's
    [innerHTML].

    The theorems give the result of each function on every branch: all
    users render (the container holds exactly one fresh card per user, in
    order); the first malformed user stops the loop with a TypeError
    after the cards of the users before it; a [users] that is not an array
    throws after the container was cleared; a [null] container throws
    before anything changes.  The DOM invariant [wf] is preserved, and
    only the container, its former children and fresh nodes change. *)

From S2P Require Import Prelude JsRuntime Document.
From Stdlib Require Import Ascii.

(** ** Templates *)

Definition newline : string := String "010"%char EmptyString.
Definition dquote : string := String "034"%char EmptyString.
Definition indent12 : string := "            ".
Definition indent8 : string := "        ".

(** The template literal of dom.js lines 7-11, with its substitutions
    already converted by ToString. *)
Definition card_template (name email city : string) : string :=
  newline +:+ indent12 +:+ "<h3>" +:+ name +:+ "</h3>" +:+
  newline +:+ indent12 +:+ "<p><strong>Email:</strong> " +:+ email +:+ "</p>" +:+
  newline +:+ indent12 +:+ "<p><strong>Ville:</strong> " +:+ city +:+ "</p>" +:+
  newline +:+ indent8.

(** The template literal of dom.js line 17. *)
Definition error_html (message : string) : string :=
  "<p style=" +:+ dquote +:+ "color:red;" +:+ dquote +:+ ">" +:+ message +:+ "</p>".

Section DomJs.
Context (eng : engine).

(** Evaluating the card template: each substitution is read and then
    converted by ToString before the next is read (ECMAScript,
    evaluation of a SubstitutionTemplate), in source order. *)
Definition card_html (user : value) : completion js_error string :=
  cbind (get_prop eng user "name") (fun name =>
  cbind (to_string eng name) (fun name_s =>
  cbind (get_prop eng user "email") (fun email =>
  cbind (to_string eng email) (fun email_s =>
  cbind (get_prop eng user "address") (fun address =>
  cbind (get_prop eng address "city") (fun city =>
  cbind (to_string eng city) (fun city_s =>
  Normal (card_template name_s email_s city_s)))))))).

(** The [forEach] callback of dom.js lines 4-13. *)
Definition render_user (container : option positive) (user : value) : dom unit :=
  userCard <- create_element "div" ;;
  class_list_add userCard "user-card" ;;
  html <- lift (card_html user) ;;
  set_inner_html eng (Some userCard) html ;;
  append_child eng container userCard.

(** [users.forEach(f)]: arrays iterate; [undefined] and [null] throw on the
    property read; any other JSON value has no callable [forEach]. *)
Definition users_for_each (users : value) (f : value -> dom unit) : dom unit :=
  match users with
  | Array xs => for_each f xs
  | _ =>
      match get_prop eng users "forEach" with
      | Throw e => throw e
      | Normal _ => throw (type_error (msg_not_function eng "users.forEach"))
      end
  end.

(** dom.js lines 2-14. *)
Definition displayUsers (users : value) (container : option positive) : dom unit :=
  set_inner_html eng container "" ;;
  users_for_each users (render_user container).

(** dom.js lines 16-18. *)
Definition displayError (message : value) (container : option positive) : dom unit :=
  text <- lift (to_string eng message) ;;
  set_inner_html eng container (error_html text).

End DomJs.

(** ** The states the code produces *)

(** A rendered card, child of [c]. *)
Definition card_element (h : string) (c : positive) : element :=
  mkElement "div" None ["user-card"] [NMarkup h] (Some c).

(** The card whose template threw: created and classed, never attached. *)
Definition orphan_element : element :=
  mkElement "div" None ["user-card"] [] None.

(** One successful callback: a card at the next id, appended to [c]. *)
Definition add_card (c : positive) (d : document) (h : string) : document :=
  let n := doc_next d in
  mkDocument (<[n := card_element h c]> (alter (add_child n) c (doc_nodes d)))
             (Pos.succ n) (doc_root d).

Definition add_cards (c : positive) (d : document) (hs : list string) : document :=
  foldl (add_card c) d hs.

(** A callback whose template threw. *)
Definition orphan_card (d : document) : document :=
  mkDocument (<[doc_next d := orphan_element]> (doc_nodes d))
             (Pos.succ (doc_next d)) (doc_root d).

(** The ids [n], [n+1], ..., [n+k-1] the allocator hands out. *)
Fixpoint alloc_ids (n : positive) (k : nat) : list positive :=
  match k with
  | O => []
  | S k' => n :: alloc_ids (Pos.succ n) k'
  end.

(** The templates of all users, or the error of the first that throws. *)
Fixpoint card_htmls (eng : engine) (us : list value) : completion js_error (list string) :=
  match us with
  | [] => Normal []
  | u :: us' =>
      cbind (card_html eng u) (fun h =>
      cbind (card_htmls eng us') (fun hs => Normal (h :: hs)))
  end.

(** ** Lemmas on the templates *)

Lemma card_template_nonempty a b c : card_template a b c <> "".
Proof. unfold card_template. rewrite string_app_cons. discriminate. Qed.

Lemma card_html_nonempty eng u h : card_html eng u = Normal h -> h <> "".
Proof.
  unfold card_html, cbind.
  repeat match goal with |- context [match ?c with _ => _ end] => destruct c end;
    intros; simplify_eq; apply card_template_nonempty.
Qed.



(** ** One [forEach] callback *)

Section Callback.
Context (eng : engine).

Lemma render_user_normal c u h d :
  card_html eng u = Normal h -> wf d -> c <> doc_next d ->
  render_user eng (Some c) u d = (Normal tt, add_card c d h).
Proof.
  intros Hu Hw Hc. pose proof (wf_next_childless d Hw). unfold render_user.
  rewrite (bind_normal _ _ _ _ _ (create_element_eq _ _)).
  rewrite (bind_normal _ _ _ tt _ (class_list_add_inserted _ _ _ _ _ _)).
  rewrite (bind_normal _ _ _ _ _ (lift_normal _ _ _ Hu)).
  rewrite (bind_normal _ _ _ tt _ (set_inner_html_inserted _ _ _ (add_class "user-card" (fresh_element "div")) _ _ _ eq_refl)).
  rewrite append_child_inserted by done.
  unfold add_card, markup_children. rewrite decide_False by (eapply card_html_nonempty; eauto).
  done.
Qed.

Lemma render_user_throw container u e d :
  card_html eng u = Throw e ->
  render_user eng container u d = (Throw e, orphan_card d).
Proof.
  intros Hu. unfold render_user.
  rewrite (bind_normal _ _ _ _ _ (create_element_eq _ _)).
  rewrite (bind_normal _ _ _ tt _ (class_list_add_inserted _ _ _ _ _ _)).
  by rewrite (bind_abrupt _ _ _ _ _ (lift_abrupt _ _ _ Hu)).
Qed.

End Callback.

(** ** The states the loop produces are well formed *)

Lemma fresh_ok_lt d c : fresh_ok d -> in_doc d c -> (c < doc_next d)%positive.
Proof. intros Hf Hc. by apply Hf. Qed.

Lemma fresh_ok_next_free d : fresh_ok d -> doc_nodes d !! doc_next d = None.
Proof. intros Hf. apply eq_None_not_Some. intros Hs. specialize (Hf _ Hs). lia. Qed.

Lemma fresh_ok_insert_next d x :
  fresh_ok d ->
  fresh_ok (mkDocument (<[doc_next d := x]> (doc_nodes d)) (Pos.succ (doc_next d))
                       (doc_root d)).
Proof.
  intros Hf k. simpl. rewrite lookup_insert_is_Some.
  intros [<-|[_ Hk]]; [lia|]. specialize (Hf _ Hk). lia.
Qed.

Lemma orphan_card_wf d : wf d -> wf (orphan_card d).
Proof.
  intros [Hok Hf]. split; [|by apply fresh_ok_insert_next].
  apply heap_ok_insert_detached; simpl; try done; [by apply fresh_ok_next_free|set_solver|constructor].
Qed.

Lemma add_card_nodes c d h :
  c <> doc_next d ->
  doc_nodes (add_card c d h) =
  attach c (doc_next d)
    (<[doc_next d := mkElement "div" None ["user-card"] [NMarkup h] None]> (doc_nodes d)).
Proof.
  intros Hc. unfold add_card, attach. simpl.
  by rewrite alter_insert_ne, alter_insert_eq by done.
Qed.

Lemma add_card_fresh_ok c d h : fresh_ok d -> fresh_ok (add_card c d h).
Proof.
  intros Hf k. simpl. rewrite lookup_insert_is_Some, lookup_alter_is_Some.
  intros [<-|[_ Hk]]; [lia|]. specialize (Hf _ Hk). lia.
Qed.

Lemma add_card_wf c d h : wf d -> in_doc d c -> wf (add_card c d h).
Proof.
  intros [Hok Hf] Hc. pose proof (fresh_ok_lt _ _ Hf Hc) as Hlt.
  split.
  - rewrite add_card_nodes by lia. apply heap_ok_attach.
    + apply heap_ok_insert_detached; simpl; try done.
      * by apply fresh_ok_next_free.
      * set_solver.
      * repeat constructor; set_solver.
    + unfold parent_of. by rewrite lookup_insert_eq.
    + rewrite lookup_insert_is_Some. right. split; [lia|done].
  - by apply add_card_fresh_ok.
Qed.

Lemma add_card_in_doc c d h k : in_doc d k -> in_doc (add_card c d h) k.
Proof.
  unfold in_doc. simpl. rewrite lookup_insert_is_Some, lookup_alter_is_Some.
  destruct (decide (doc_next d = k)); tauto.
Qed.

#[export] Hint Resolve add_card_fresh_ok add_card_wf add_card_in_doc orphan_card_wf : jsm.

Lemma add_cards_wf c d hs : wf d -> in_doc d c -> wf (add_cards c d hs) /\ in_doc (add_cards c d hs) c.
Proof.
  revert d. induction hs as [|h hs IH]; intros d Hd Hc; simpl; [done|].
  apply IH; eauto with jsm.
Qed.

(** ** The shape of the rendered container *)


Lemma add_card_frame c d h k :
  k <> c -> k <> doc_next d -> doc_nodes (add_card c d h) !! k = doc_nodes d !! k.
Proof. intros. simpl. by rewrite lookup_insert_ne, lookup_alter_ne by done. Qed.

(** Nodes allocated before the loop, other than the container, are left
    alone by the cards. *)
Lemma add_cards_frame c d hs k :
  k <> c -> (k < doc_next d)%positive ->
  doc_nodes (add_cards c d hs) !! k = doc_nodes d !! k.
Proof.
  revert d. induction hs as [|h hs IH]; intros d Hkc Hk; simpl; [done|].
  rewrite IH; simpl; [|done|lia]. apply add_card_frame; [done|lia].
Qed.

(** One fresh node per card. *)
Lemma add_cards_next_eq c d hs :
  Pos.to_nat (doc_next (add_cards c d hs)) = Pos.to_nat (doc_next d) + length hs.
Proof.
  revert d. induction hs as [|h hs IH]; intros d; simpl; [lia|].
  rewrite (IH (add_card c d h)). simpl. lia.
Qed.

Lemma add_cards_next c d hs :
  (doc_next d <= doc_next (add_cards c d hs))%positive.
Proof. pose proof (add_cards_next_eq c d hs). lia. Qed.

Lemma add_cards_children c d hs :
  (c < doc_next d)%positive ->
  children_of (doc_nodes (add_cards c d hs)) c =
  (fun cs => cs ++ map NElem (alloc_ids (doc_next d) (length hs)))
    <$> children_of (doc_nodes d) c.
Proof.
  revert d. induction hs as [|h hs IH]; intros d Hc; simpl.
  - unfold children_of. destruct (doc_nodes d !! c); simpl; by rewrite ?app_nil_r.
  - rewrite IH by (simpl; lia). unfold children_of. simpl.
    rewrite lookup_insert_ne by lia. rewrite lookup_alter_eq.
    destruct (doc_nodes d !! c); simpl; [|done]. by rewrite <- app_assoc.
Qed.

Lemma add_cards_cards c d hs :
  (c < doc_next d)%positive ->
  Forall2 (fun n h => doc_nodes (add_cards c d hs) !! n = Some (card_element h c))
          (alloc_ids (doc_next d) (length hs)) hs.
Proof.
  revert d. induction hs as [|h hs IH]; intros d Hc; simpl; constructor.
  - rewrite add_cards_frame; simpl; [|lia|lia]. by rewrite lookup_insert_eq.
  - apply IH. simpl. lia.
Qed.

(** ** What the container shows *)

(** The container's children are exactly one card per template of [hs],
    in order. *)
Definition shows_cards (d : document) (c : positive) (hs : list string) : Prop :=
  exists ids, children_of (doc_nodes d) c = Some (map NElem ids) /\
    Forall2 (fun n h => doc_nodes d !! n = Some (card_element h c)) ids hs.

(** The container holds the one markup fragment [html]. *)
Definition shows_markup (d : document) (c : positive) (html : string) : Prop :=
  children_of (doc_nodes d) c = Some [NMarkup html].

(** ** The loop *)

Section Loop.
Context (eng : engine).

Lemma for_each_render_normal c us hs d :
  card_htmls eng us = Normal hs -> wf d -> in_doc d c ->
  for_each (render_user eng (Some c)) us d = (Normal tt, add_cards c d hs).
Proof.
  revert hs d. induction us as [|u us IH]; intros hs d Hus Hw Hc; simpl in *.
  - by simplify_eq.
  - unfold cbind in Hus.
    destruct (card_html eng u) as [h|e] eqn:Hu; [|discriminate].
    destruct (card_htmls eng us) as [hs'|e] eqn:Hus'; simplify_eq.
    pose proof (fresh_ok_lt _ _ (proj2 Hw) Hc).
    rewrite (bind_normal _ _ _ _ _ (render_user_normal eng c u h d Hu Hw ltac:(lia))).
    simpl. apply IH; eauto with jsm.
Qed.

Lemma for_each_render_throw c pre u post hs e d :
  card_htmls eng pre = Normal hs -> card_html eng u = Throw e ->
  wf d -> in_doc d c ->
  for_each (render_user eng (Some c)) (pre ++ u :: post) d =
  (Throw e, orphan_card (add_cards c d hs)).
Proof.
  intros Hpre Hu Hf Hc. rewrite for_each_app.
  rewrite (bind_normal _ _ _ _ _ (for_each_render_normal c pre hs d Hpre Hf Hc)).
  simpl. by rewrite (bind_abrupt _ _ _ _ _ (render_user_throw eng _ u e _ Hu)).
Qed.

End Loop.

(** ** The abstract specification of [displayUsers]

    [users_plan] says, without any DOM, what [displayUsers] does: the list
    of card templates it leaves in the container and the error, if any, it
    throws: the templates of the users before the first one whose
    template throws, and that error; or no card and the error of
    [users.forEach] when [users] is not an array. *)

Fixpoint render_plan (eng : engine) (us : list value)
  : list string * option js_error :=
  match us with
  | [] => ([], None)
  | u :: us' =>
      match card_html eng u with
      | Normal h => let '(hs, oe) := render_plan eng us' in (h :: hs, oe)
      | Throw e => ([], Some e)
      end
  end.

Definition users_plan (eng : engine) (users : value) : list string * option js_error :=
  match users with
  | Array us => render_plan eng us
  | Undefined => ([], Some (type_error (msg_read_prop eng "undefined" "forEach")))
  | Null => ([], Some (type_error (msg_read_prop eng "null" "forEach")))
  | _ => ([], Some (type_error (msg_not_function eng "users.forEach")))
  end.

(** The completion a plan's error gives. *)
Definition plan_completion (oe : option js_error) : completion js_error unit :=
  match oe with
  | None => Normal tt
  | Some e => Throw e
  end.

Lemma render_plan_none eng us hs :
  render_plan eng us = (hs, None) -> card_htmls eng us = Normal hs.
Proof.
  revert hs. induction us as [|u us IH]; intros hs; simpl; [by intros [=<-]|].
  destruct (card_html eng u) as [h|e]; [|done].
  destruct (render_plan eng us) as [hs' [e|]] eqn:E; [done|].
  intros [=<-]. unfold cbind. by rewrite (IH _ eq_refl).
Qed.

Lemma render_plan_some eng us hs e :
  render_plan eng us = (hs, Some e) ->
  exists pre u post, us = pre ++ u :: post /\
    card_htmls eng pre = Normal hs /\ card_html eng u = Throw e.
Proof.
  revert hs. induction us as [|u us IH]; intros hs; simpl; [done|].
  destruct (card_html eng u) as [h|e'] eqn:Hu.
  - destruct (render_plan eng us) as [hs' oe] eqn:E. intros [=<- ->].
    destruct (IH _ eq_refl) as (pre & u' & post & -> & Hpre & Hu').
    exists (u :: pre), u', post. simpl. by rewrite Hu, Hpre.
  - intros [=<- ->]. by exists [], u, us.
Qed.

(** The document [displayUsers] leaves, from the cleared document [d1]. *)
(** A plan renders at most every user, and stops at the first failing
    one. *)
Lemma render_plan_length eng us :
  length (render_plan eng us).1 + (if (render_plan eng us).2 is Some _ then 1 else 0)
    <= length us.
Proof.
  induction us as [|u us IH]; simpl; [lia|].
  destruct (card_html eng u); [|simpl; lia].
  destruct (render_plan eng us) as [hs oe]. simpl in *. lia.
Qed.

Definition plan_state (eng : engine) (c : positive) (d1 : document) (users : value)
  : document :=
  match users with
  | Array us =>
      let '(hs, oe) := render_plan eng us in
      match oe with
      | None => add_cards c d1 hs
      | Some _ => orphan_card (add_cards c d1 hs)
      end
  | _ => d1
  end.

Section DisplayUsers.
Context (eng : engine).

(** [displayUsers] runs its plan on the cleared container. *)
Lemma displayUsers_eq d c users d1 :
  set_inner_html eng (Some c) "" d = (Normal tt, d1) -> wf d1 -> in_doc d1 c ->
  displayUsers eng users (Some c) d =
  (plan_completion (users_plan eng users).2, plan_state eng c d1 users).
Proof.
  intros E1 Hf Hc. unfold displayUsers. rewrite (bind_normal _ _ _ _ _ E1).
  destruct users as [| | | | |us|]; simpl; try reflexivity.
  destruct (render_plan eng us) as [hs [e|]] eqn:P.
  - destruct (render_plan_some _ _ _ _ P) as (pre & u & post & -> & Hpre & Hu).
    by apply for_each_render_throw.
  - apply render_plan_none in P. by apply for_each_render_normal.
Qed.

Lemma shows_cards_add_cards c d hs :
  children_of (doc_nodes d) c = Some [] -> fresh_ok d -> in_doc d c ->
  shows_cards (add_cards c d hs) c hs.
Proof.
  intros Hcs Hf Hc. pose proof (fresh_ok_lt _ _ Hf Hc).
  exists (alloc_ids (doc_next d) (length hs)). split.
  - by rewrite add_cards_children, Hcs.
  - by apply add_cards_cards.
Qed.

Lemma shows_cards_orphan c d hs :
  fresh_ok d -> in_doc d c -> shows_cards d c hs -> shows_cards (orphan_card d) c hs.
Proof.
  intros Hf Hc (ids & Hcs & Hids). pose proof (fresh_ok_lt _ _ Hf Hc).
  exists ids. split.
  - unfold children_of in *. simpl. by rewrite lookup_insert_ne by lia.
  - eapply Forall2_impl; [done|]. intros n h Hn. simpl.
    assert (n <> doc_next d) as Hne.
    { intros ->. by rewrite (fresh_ok_next_free _ Hf) in Hn. }
    by rewrite lookup_insert_ne by done.
Qed.

(** Clearing the container: what the first statement of displayUsers does. *)
Lemma clear_container d c :
  wf d -> in_doc d c ->
  exists d1, set_inner_html eng (Some c) "" d = (Normal tt, d1) /\ wf d1 /\
    in_doc d1 c /\ children_of (doc_nodes d1) c = Some [] /\
    doc_next d1 = doc_next d /\
    (forall k cs, children_of (doc_nodes d) c = Some cs -> k <> c -> NElem k ∉ cs ->
       doc_nodes d1 !! k = doc_nodes d !! k).
Proof.
  intros Hwf Hc.
  destruct (set_inner_html_elem eng c "" d Hc) as (d1 & E1 & C1 & N1 & I1 & F1).
  exists d1. split_and!; try done.
  - pose proof (set_inner_html_wf eng c "" d Hwf) as W. by rewrite E1 in W.
  - by apply I1.
Qed.

(** The plan's final document is well formed and shows the plan's cards. *)
Lemma plan_state_ok c d1 users :
  wf d1 -> in_doc d1 c -> children_of (doc_nodes d1) c = Some [] ->
  wf (plan_state eng c d1 users) /\ in_doc (plan_state eng c d1 users) c /\
  shows_cards (plan_state eng c d1 users) c (users_plan eng users).1.
Proof.
  intros W1 I1 C1.
  destruct users as [| | | | |us|]; simpl; try (split_and!; [done|done|by exists []]).
  destruct (render_plan eng us) as [hs [e|]]; simpl;
    destruct (add_cards_wf c d1 hs W1 I1) as [W2 I2];
    pose proof (shows_cards_add_cards c d1 hs C1 (proj2 W1) I1).
  - split_and!; [by apply orphan_card_wf| |by apply shows_cards_orphan; [apply W2|..]].
    pose proof (fresh_ok_lt _ _ (proj2 W2) I2). unfold in_doc in *. simpl.
    rewrite lookup_insert_is_Some. right. split; [lia|done].
  - done.
Qed.

(** The plan's final document differs from [d1] only at the container and
    at nodes allocated after [d1]. *)
Lemma plan_state_frame c d1 users k :
  fresh_ok d1 -> in_doc d1 c -> k <> c -> in_doc d1 k ->
  doc_nodes (plan_state eng c d1 users) !! k = doc_nodes d1 !! k.
Proof.
  intros Hf Hc Hkc Hk. pose proof (fresh_ok_lt _ _ Hf Hk) as Hlt.
  destruct users as [| | | | |us|]; simpl; try done.
  destruct (render_plan eng us) as [hs [e|]]; simpl.
  - pose proof (add_cards_next c d1 hs).
    rewrite lookup_insert_ne by lia. by apply add_cards_frame.
  - by apply add_cards_frame.
Qed.

(** C1: the refinement of [displayUsers] by its plan: on a well-formed
    document and an existing container, [displayUsers] throws exactly the
    plan's error (if any) and leaves the container showing exactly the
    plan's cards, in a well-formed document. *)
Theorem displayUsers_refines d c users :
  wf d -> in_doc d c ->
  exists d', displayUsers eng users (Some c) d =
             (plan_completion (users_plan eng users).2, d') /\
    wf d' /\ shows_cards d' c (users_plan eng users).1.
Proof.
  intros Hwf Hc.
  destruct (clear_container d c Hwf Hc) as (d1 & E1 & W1 & I1 & C1 & _ & _).
  destruct (plan_state_ok c d1 users W1 I1 C1) as (W2 & _ & S2).
  exists (plan_state eng c d1 users). split; [|done].
  apply displayUsers_eq; [done|apply W1|done].
Qed.

End DisplayUsers.

(** ** Plans of arrays *)

Lemma render_plan_normal eng us hs :
  card_htmls eng us = Normal hs -> render_plan eng us = (hs, None).
Proof.
  revert hs. induction us as [|u us IH]; intros hs; simpl; [by intros [=<-]|].
  unfold cbind. destruct (card_html eng u); [|done].
  destruct (card_htmls eng us); intros; simplify_eq. by rewrite (IH _ eq_refl).
Qed.

Lemma render_plan_prefix eng pre u post hs e :
  card_htmls eng pre = Normal hs -> card_html eng u = Throw e ->
  render_plan eng (pre ++ u :: post) = (hs, Some e).
Proof.
  revert hs. induction pre as [|u' pre IH]; intros hs; simpl.
  - intros [=<-] ->. done.
  - unfold cbind. destruct (card_html eng u'); [|done].
    destruct (card_htmls eng pre); intros; simplify_eq. by rewrite (IH _ eq_refl).
Qed.

(** The property a user's template reads, [undefined] when absent. *)
Definition field (ps : list (string * value)) (k : string) : value :=
  default Undefined (obj_lookup ps k).


Section DomClaims.
Context (eng : engine).

(** C7: when every user's template evaluates, [displayUsers] returns
    normally and the container holds exactly one card per user, in order,
    each a [div.user-card] whose markup is that user's template. *)
Theorem displayUsers_renders_all d c us hs :
  wf d -> in_doc d c -> card_htmls eng us = Normal hs ->
  exists d', displayUsers eng (Array us) (Some c) d = (Normal tt, d') /\
    wf d' /\ shows_cards d' c hs.
Proof.
  intros Hwf Hc Hus.
  destruct (clear_container eng d c Hwf Hc) as (d1 & E1 & W1 & I1 & C1 & _ & _).
  destruct (plan_state_ok eng c d1 (Array us) W1 I1 C1) as (W2 & _ & S2).
  exists (plan_state eng c d1 (Array us)).
  rewrite (displayUsers_eq eng d c (Array us) d1 E1 W1 I1).
  simpl in *. rewrite (render_plan_normal _ _ _ Hus) in *. done.
Qed.

(** C5: the first user whose template throws (no [address], or a [null]
    user) stops the loop: [displayUsers] throws that error and the
    container keeps the cards of the users before it. *)
Theorem displayUsers_partial_render d c pre u post hs e :
  wf d -> in_doc d c -> card_htmls eng pre = Normal hs -> card_html eng u = Throw e ->
  exists d', displayUsers eng (Array (pre ++ u :: post)) (Some c) d = (Throw e, d') /\
    wf d' /\ shows_cards d' c hs.
Proof.
  intros Hwf Hc Hpre Hu.
  destruct (clear_container eng d c Hwf Hc) as (d1 & E1 & W1 & I1 & C1 & _ & _).
  destruct (plan_state_ok eng c d1 (Array (pre ++ u :: post)) W1 I1 C1) as (W2 & _ & S2).
  exists (plan_state eng c d1 (Array (pre ++ u :: post))).
  rewrite (displayUsers_eq eng d c _ d1 E1 W1 I1).
  simpl in *. rewrite (render_plan_prefix _ _ _ _ _ _ Hpre Hu) in *. done.
Qed.

(** C8: a [users] that is not an array (an API error object, [null], a
    string) makes [displayUsers] clear the container and then throw the
    TypeError of [users.forEach]. *)
Theorem displayUsers_not_array d c users :
  wf d -> in_doc d c -> (forall us, users <> Array us) ->
  exists d', displayUsers eng users (Some c) d =
    (Throw (type_error (match users with
                        | Undefined => msg_read_prop eng "undefined" "forEach"
                        | Null => msg_read_prop eng "null" "forEach"
                        | _ => msg_not_function eng "users.forEach"
                        end)), d') /\
    children_of (doc_nodes d') c = Some [].
Proof.
  intros Hwf Hc Hna.
  destruct (clear_container eng d c Hwf Hc) as (d1 & E1 & W1 & I1 & C1 & _ & _).
  exists d1. rewrite (displayUsers_eq eng d c users d1 E1 W1 I1).
  destruct users as [| | | | |us|]; try done. by destruct (Hna us).
Qed.

(** C9: [displayUsers] changes no node other than the container, its
    former children and the nodes it allocates, whatever it ends with. *)
Theorem displayUsers_frame d c users k :
  wf d -> in_doc d c -> k <> c -> in_doc d k ->
  (forall cs, children_of (doc_nodes d) c = Some cs -> NElem k ∉ cs) ->
  doc_nodes (snd (displayUsers eng users (Some c) d)) !! k = doc_nodes d !! k.
Proof.
  intros Hwf Hc Hkc Hk Hnc.
  destruct (clear_container eng d c Hwf Hc) as (d1 & E1 & W1 & I1 & C1 & N1 & F1).
  rewrite (displayUsers_eq eng d c users d1 E1 W1 I1). simpl.
  destruct Hc as [ec Ec].
  assert (Cc : children_of (doc_nodes d) c = Some (el_children ec))
    by (unfold children_of; by rewrite Ec).
  rewrite plan_state_frame; [|apply W1|done|done|].
  - eapply F1; eauto.
  - unfold in_doc. rewrite (F1 k _ Cc Hkc (Hnc _ Cc)). done.
Qed.

Lemma displayError_normal msg s container d :
  to_string eng msg = Normal s ->
  displayError eng msg container d = set_inner_html eng container (error_html s) d.
Proof. intros Hs. unfold displayError, bind, lift. by rewrite Hs. Qed.

(** [displayError] replaces the container's content by the one red
    paragraph holding the converted message. *)
Lemma displayError_shows d c msg s :
  wf d -> in_doc d c -> to_string eng msg = Normal s ->
  exists d', displayError eng msg (Some c) d = (Normal tt, d') /\
    wf d' /\ in_doc d' c /\ shows_markup d' c (error_html s) /\
    doc_next d' = doc_next d /\
    (forall k cs, children_of (doc_nodes d) c = Some cs -> k <> c -> NElem k ∉ cs ->
       doc_nodes d' !! k = doc_nodes d !! k).
Proof.
  intros Hwf Hc Hs.
  destruct (set_inner_html_elem eng c (error_html s) d Hc) as (d' & E & C & N & I & F).
  exists d'. rewrite (displayError_normal _ _ _ _ Hs), E.
  split_and!; [done| |by apply I| |done|done].
  - pose proof (set_inner_html_wf eng c (error_html s) d Hwf) as W.
    by rewrite E in W.
  - unfold shows_markup. rewrite C. unfold markup_children.
    rewrite decide_False; [done|]. unfold error_html. rewrite string_app_cons. discriminate.
Qed.

(** An error of ToString leaves [displayError] before the assignment. *)
Lemma displayError_throw msg container d e :
  to_string eng msg = Throw e -> displayError eng msg container d = (Throw e, d).
Proof. intros He. unfold displayError, bind, lift. by rewrite He. Qed.

(** C18: [displayError] replaces the content of an existing container by
    the red paragraph holding the message converted by ToString,
    allocates nothing, keeps the document well formed and leaves every
    node outside the container's former children as it was; on a [null]
    container it throws the TypeError of assigning [innerHTML] and changes
    nothing; a message whose conversion throws makes it throw that error
    first, whatever the container. *)
Theorem displayError_replaces d c msg s :
  (wf d -> in_doc d c -> to_string eng msg = Normal s ->
   exists d', displayError eng msg (Some c) d = (Normal tt, d') /\ wf d' /\
     shows_markup d' c (error_html s) /\ doc_next d' = doc_next d /\
     (forall k cs, children_of (doc_nodes d) c = Some cs -> k <> c -> NElem k ∉ cs ->
        doc_nodes d' !! k = doc_nodes d !! k)) /\
  (to_string eng msg = Normal s ->
   displayError eng msg None d = (Throw (type_error (msg_set_prop eng "null" "innerHTML")), d)) /\
  (forall e container, to_string eng msg = Throw e -> displayError eng msg container d = (Throw e, d)).
Proof.
  split_and!.
  - intros Hwf Hc Hs.
    destruct (displayError_shows d c msg s Hwf Hc Hs) as (d' & ? & ? & _ & ? & ? & ?). by exists d'.
  - intros Hs. by rewrite (displayError_normal _ _ _ _ Hs).
  - intros e container. apply displayError_throw.
Qed.

(** The template of a user object, its own reads done. *)
Lemma card_html_object_eq ps :
  card_html eng (Object ps) =
  cbind (to_string eng (field ps "name")) (fun n =>
  cbind (to_string eng (field ps "email")) (fun e =>
  cbind (get_prop eng (field ps "address") "city") (fun city =>
  cbind (to_string eng city) (fun c => Normal (card_template n e c))))).
Proof. reflexivity. Qed.

(** A value that ToString converts without throwing. *)
Definition converts (v : value) : Prop := exists s, to_string eng v = Normal s.

(** C12: a user's template evaluates exactly when the user is an object
    whose [address] is present and not [null], and whose [name], [email]
    and [address.city] convert to strings (none is an object with an own
    [toString] key, nor an array holding one); every other user (a
    missing address, [null], a string, an unconvertible field) makes it
    throw. *)
Theorem card_html_normal_iff u :
  (exists h, card_html eng u = Normal h) <->
  exists ps city, u = Object ps /\ field ps "address" <> Undefined /\ field ps "address" <> Null /\
    get_prop eng (field ps "address") "city" = Normal city /\
    converts (field ps "name") /\ converts (field ps "email") /\ converts city.
Proof.
  split.
  - intros [h Hh]. destruct u as [| | | | |xs|ps]; try (cbn in Hh; discriminate).
    rewrite card_html_object_eq in Hh.
    apply cbind_Normal in Hh as (n & Hn & Hh). apply cbind_Normal in Hh as (e & He & Hh).
    apply cbind_Normal in Hh as (city & Hc & Hh). apply cbind_Normal in Hh as (c & Hcs & _).
    exists ps, city. unfold converts.
    split_and!; eauto; intros Ha; rewrite Ha in Hc; discriminate.
  - intros (ps & city & -> & _ & _ & Hc & [n Hn] & [e He] & [c Hcs]).
    rewrite card_html_object_eq, Hn, He, Hc. cbn [cbind]. rewrite Hcs. by eexists.
Qed.

(** C13: on a user object the template converts each substitution right
    after reading it: with an address object and convertible fields the
    card is the template of the three strings (an absent property reads
    as [undefined]); a [name] whose conversion throws makes the template
    throw that error before [email] and [address] are read (so even when
    the address is missing), and likewise an [email] after [name]. *)
Theorem card_html_object ps :
  (forall qs n e c, field ps "address" = Object qs ->
     to_string eng (field ps "name") = Normal n -> to_string eng (field ps "email") = Normal e ->
     to_string eng (field qs "city") = Normal c ->
     card_html eng (Object ps) = Normal (card_template n e c)) /\
  (forall err, to_string eng (field ps "name") = Throw err -> card_html eng (Object ps) = Throw err) /\
  (forall n err, to_string eng (field ps "name") = Normal n ->
     to_string eng (field ps "email") = Throw err -> card_html eng (Object ps) = Throw err).
Proof.
  rewrite card_html_object_eq. split_and!.
  - intros qs n e c Ha Hn He Hc. rewrite Hn, He, Ha. simpl. unfold field in Hc. by rewrite Hc.
  - intros err Hn. by rewrite Hn.
  - intros n err Hn He. by rewrite Hn, He.
Qed.

(** C17: [displayUsers] allocates one [div] per user it reaches: one per
    card it appends, plus the one left detached when a user's template
    throws; so never more nodes than there are users. *)
Theorem displayUsers_alloc_bound d c us :
  wf d -> in_doc d c ->
  Pos.to_nat (doc_next (snd (displayUsers eng (Array us) (Some c) d))) =
    Pos.to_nat (doc_next d) + length (render_plan eng us).1 +
    (if (render_plan eng us).2 is Some _ then 1 else 0) /\
  Pos.to_nat (doc_next (snd (displayUsers eng (Array us) (Some c) d))) <=
    Pos.to_nat (doc_next d) + length us.
Proof.
  intros Hwf Hc. pose proof (render_plan_length eng us) as Hl.
  destruct (clear_container eng d c Hwf Hc) as (d1 & E1 & W1 & I1 & _ & N1 & _).
  rewrite (displayUsers_eq eng d c (Array us) d1 E1 W1 I1). simpl.
  destruct (render_plan eng us) as [hs [e|]]; simpl in *;
    rewrite ?Pos2Nat.inj_succ, add_cards_next_eq, N1; lia.
Qed.

End DomClaims.

(** ** Examples on the page main.js expects *)

(** A user as the API returns it. *)
Definition sample_user (name city : string) : value :=
  Object [("name", Str name); ("email", Str (name +:+ "@example.com"));
          ("address", Object [("city", Str city)])].

(** A user record without an [address]. *)
Definition user_without_address (name : string) : value :=
  Object [("name", Str name); ("email", Str (name +:+ "@example.com"))].

Lemma displayUsers_refines_witness :
  exists d', displayUsers v8 (Array [sample_user "Leanne" "Gwenborough"]) (Some 3%positive)
               sample_page =
             (plan_completion (users_plan v8 (Array [sample_user "Leanne" "Gwenborough"])).2, d') /\
    wf d' /\ shows_cards d' 3 (users_plan v8 (Array [sample_user "Leanne" "Gwenborough"])).1.
Proof. apply displayUsers_refines; vm_decide. Defined.

Lemma displayUsers_renders_all_witness :
  exists d', displayUsers v8 (Array [sample_user "Leanne" "Gwenborough";
                                     sample_user "Ervin" "Wisokyburgh"])
               (Some 3%positive) sample_page = (Normal tt, d') /\
    wf d' /\
    shows_cards d' 3 [card_template "Leanne" "Leanne@example.com" "Gwenborough";
                      card_template "Ervin" "Ervin@example.com" "Wisokyburgh"].
Proof. apply displayUsers_renders_all; [vm_decide|vm_decide|vm_compute; reflexivity]. Defined.

Lemma displayUsers_partial_render_witness :
  exists d', displayUsers v8 (Array ([sample_user "Leanne" "Gwenborough"] ++
                                     user_without_address "Ervin" ::
                                     [sample_user "Clementine" "McKenziehaven"]))
               (Some 3%positive) sample_page =
             (Throw (type_error "Cannot read properties of undefined (reading 'city')"), d') /\
    wf d' /\ shows_cards d' 3 [card_template "Leanne" "Leanne@example.com" "Gwenborough"].
Proof.
  apply displayUsers_partial_render; [vm_decide|vm_decide|vm_compute; reflexivity..].
Defined.

Lemma displayUsers_not_array_witness :
  exists d', displayUsers v8 (Object [("error", Str "rate limited")]) (Some 3%positive)
               sample_page =
             (Throw (type_error "users.forEach is not a function"), d') /\
    children_of (doc_nodes d') 3 = Some [].
Proof. apply (displayUsers_not_array v8); [vm_decide|vm_decide|intros us; discriminate]. Defined.

Lemma displayUsers_frame_witness :
  doc_nodes (snd (displayUsers v8 (Array [sample_user "Leanne" "Gwenborough"])
                    (Some 3%positive) sample_page)) !! 2%positive =
  doc_nodes sample_page !! 2%positive.
Proof.
  apply displayUsers_frame; [vm_decide|vm_decide|lia|vm_decide|].
  vm_compute. intros cs [=<-]. set_solver.
Defined.

(** A user with an empty address and no email: both render as [undefined]. *)
Lemma displayUsers_alloc_bound_witness :
  Pos.to_nat (doc_next (snd (displayUsers v8
     (Array [sample_user "Leanne" "Gwenborough"; user_without_address "Ervin";
             sample_user "Clementine" "McKenziehaven"]) (Some 3%positive) sample_page))) = 6%nat.
Proof.
  destruct (displayUsers_alloc_bound v8 sample_page 3
     [sample_user "Leanne" "Gwenborough"; user_without_address "Ervin";
      sample_user "Clementine" "McKenziehaven"]) as [-> _]; [vm_decide|vm_decide|].
  vm_compute. reflexivity.
Defined.

Lemma displayError_replaces_witness :
  displayError v8 (Str "Erreur API") None sample_page =
    (Throw (type_error (msg_set_prop v8 "null" "innerHTML")), sample_page) /\
  exists d', displayError v8 (Str "Erreur API") (Some 3%positive) sample_page = (Normal tt, d') /\
    shows_markup d' 3 (error_html "Erreur API").
Proof.
  destruct (displayError_replaces v8 sample_page 3 (Str "Erreur API") "Erreur API")
    as (H1 & H2 & _).
  split; [exact (H2 eq_refl)|].
  destruct (H1 ltac:(vm_decide) ltac:(vm_decide) eq_refl) as (d' & E & _ & S & _).
  exists d'. split; [exact E|exact S].
Defined.

(** A user whose name is an object with its own [toString] key and who
    has no address: the conversion of the name throws first. *)
Lemma card_html_object_witness :
  card_html v8 (Object [("name", Str "Ervin"); ("address", Object [])]) =
    Normal (card_template "Ervin" "undefined" "undefined") /\
  card_html v8 (Object [("name", Object [("toString", Str "x")])]) =
    Throw (type_error "Cannot convert object to primitive value").
Proof.
  split.
  - apply (card_html_object v8 [("name", Str "Ervin"); ("address", Object [])]) with (qs := []);
      reflexivity.
  - apply (card_html_object v8 [("name", Object [("toString", Str "x")])]). reflexivity.
Defined.

Lemma card_html_normal_iff_witness :
  ~ exists h, card_html v8 (Object [("name", Array [Object [("toString", Null)]]);
                                    ("address", Object [("city", Str "Gwenborough")])]) = Normal h.
Proof.
  rewrite card_html_normal_iff. intros (ps & city & [=<-] & _ & _ & _ & [s Hs] & _).
  discriminate Hs.
Defined.
