(* ===== verification/Html.v ===== *)
(** * The HTML tokenizer behind the [innerHTML] setter

    Assigning [innerHTML] (dom.js lines 3, 7 and 17) runs the HTML
    fragment parser on the string, whose first stage is the tokenizer of
    the HTML standard (section 13.2.5).  [html_step] is its transition
    function on the states a fragment can reach: data, tag open, end tag
    open, tag name, the attribute states of a tag (before, in and after an
    attribute name, before a value, a double- or single-quoted and an
    unquoted value, after a quoted value, the self-closing start tag), the
    bogus comment, the markup declaration and the
    comment states, the text of a raw-text element ([textarea], [title],
    [script], [style], ...) with its end tag open and end tag name states,
    and [plaintext].  [html_run] folds it over the text and [html_tokens]
    keeps the start and end tags it emits.  A tag is emitted at its closing
    [>]; one left open at the end of the text is dropped, as the standard
    does.  The switch to a raw-text state after such a start tag, which
    the tree builder orders, is made by the tokenizer itself ([after_tag]).

    The theorems show that the markup of a card is the template's tags with
    the tags of the user's name, email and city spliced in, and the same for
    the error paragraph with the message: markup in the data becomes
    elements of the page; and that a comment or a raw-text element opened
    in the name turns the rest of the card into text.

    The preprocessing of the input stream turns CR LF and a lone CR into
    a line feed: [html_step] reads CR as LF, which is the same for the
    tags and the states since a second line feed changes nothing
    ([html_step_lf_lf]).  Exact for the tags: a character reference
    ([&amp;], [&#60;]) consumes
    only letters, digits, [#], [x] and [;], so it never consumes a [<], a
    [>] or a quote and cannot change the tags; the model reads it as plain
    characters.  The less-than sign states inside a comment only report
    parse errors ([html_step]).  [DOCTYPE] and [[CDATA[] outside foreign
    content end at the first [>], as the bogus comment does.  Not modelled:
    the escape states of script data ([<!--] inside a [script]), which can
    delay its end tag. *)

From S2P Require Import Prelude JsRuntime Dom.
From Stdlib Require Import Ascii.

Inductive token : Type :=
| StartTag (name : string)
| EndTag (name : string).

#[global] Instance token_eq_dec : EqDecision token.
Proof. solve_decision. Defined.

Inductive tstate : Type :=
| Data
| TagOpen
| EndTagOpen
| TagName (tk : token)
(** the attribute states of a tag [tk] *)
| BeforeAttrName (tk : token)
| AttrName (tk : token)
| AfterAttrName (tk : token)
| BeforeValue (tk : token)
(** the attribute value (double-quoted) and (single-quoted) states *)
| Quoted (tk : token) (dq : bool)
| Unquoted (tk : token)
| AfterQuoted (tk : token)
| SelfClosing (tk : token)
| Bogus
(** after [<!] and [<!-]: the markup declaration open state *)
| MarkupDecl
| MarkupDeclDash
(** the comment states *)
| CommentStart
| CommentStartDash
| Comment
| CommentEndDash
| CommentEnd
| CommentEndBang
(** the text of a raw-text element [t] (RCDATA, RAWTEXT, script data),
    after a [<], after [</], and inside the name [buf] of an end tag *)
| RawText (t : string)
| RawLt (t : string)
| RawEndOpen (t : string)
| RawEndName (t buf : string)
| Plaintext.

#[global] Instance tstate_eq_dec : EqDecision tstate.
Proof. solve_decision. Defined.

Definition is_alpha (c : ascii) : bool :=
  let n := nat_of_ascii c in bool_decide (65 <= n <= 90 \/ 97 <= n <= 122).

(** ASCII lowercase, as tag names are normalised. *)
Definition to_lower (c : ascii) : ascii :=
  let n := nat_of_ascii c in
  if decide (65 <= n <= 90) then ascii_of_nat (n + 32) else c.

(** Tab, line feed, form feed, space. *)
Definition is_html_ws (c : ascii) : bool :=
  match nat_of_ascii c with 9 | 10 | 12 | 32 => true | _ => false end.

Definition push_name (tk : token) (c : ascii) : token :=
  match tk with
  | StartTag n => StartTag (n +:+ String (to_lower c) EmptyString)
  | EndTag n => EndTag (n +:+ String (to_lower c) EmptyString)
  end.

(** The elements whose start tag switches the tokenizer to a raw-text
    state ("in body": textarea and title to RCDATA, script to script
    data, the others to RAWTEXT; noscript because scripting is enabled). *)
Definition raw_tags : list string :=
  ["textarea"; "title"; "script"; "style"; "xmp"; "iframe"; "noembed"; "noframes";
   "noscript"].

(** The state after a tag is emitted. *)
Definition after_tag (tk : token) : tstate :=
  match tk with
  | StartTag t =>
      if bool_decide (t = "plaintext") then Plaintext
      else if bool_decide (t ∈ raw_tags) then RawText t else Data
  | EndTag _ => Data
  end.

(** The before-attribute-name state on [c]: [/] and [>] are reconsumed
    in the after-attribute-name state; any other character, [=]
    included, starts the name of an attribute.  The after-quoted-value
    and self-closing-start-tag states do the same on every character but
    a parse error (their [/] and [>] lead where this state's do). *)
Definition before_attr_name (tk : token) (c : ascii) : tstate * list token :=
  if is_html_ws c then (BeforeAttrName tk, [])
  else if decide (c = "/"%char) then (SelfClosing tk, [])
  else if decide (c = ">"%char) then (after_tag tk, [tk])
  else (AttrName tk, []).

(** The attribute-name state on [c]; the after-attribute-name state does
    the same (an other character starts a new attribute there, continues
    the name here). *)
Definition attr_name (tk : token) (c : ascii) : tstate * list token :=
  if is_html_ws c then (AfterAttrName tk, [])
  else if decide (c = "/"%char) then (SelfClosing tk, [])
  else if decide (c = "="%char) then (BeforeValue tk, [])
  else if decide (c = ">"%char) then (after_tag tk, [tk])
  else (AttrName tk, []).

(** Reconsume [c] in the data state, or in the text of [t]. *)
Definition data_reconsume (c : ascii) : tstate :=
  if decide (c = "<"%char) then TagOpen else Data.
Definition raw_reconsume (t : string) (c : ascii) : tstate :=
  if decide (c = "<"%char) then RawLt t else RawText t.

(** Reconsume [c] in the bogus comment and in the comment state. *)
Definition bogus_reconsume (c : ascii) : tstate :=
  if decide (c = ">"%char) then Data else Bogus.
Definition comment_reconsume (c : ascii) : tstate :=
  if decide (c = "-"%char) then CommentEndDash else Comment.

(** The input stream's preprocessing reads a carriage return as a line
    feed; a CR LF pair becomes one line feed, and the second of two line
    feeds changes no state and emits nothing ([html_step_lf_lf]), so
    reading each CR as an LF gives the same tags and states. *)
Definition cr_to_lf (c : ascii) : ascii := if decide (c = "013"%char) then "010"%char else c.

(** One character: the next state and the tokens emitted.  The less-than
    sign states inside a comment only report parse errors: reading their
    characters in the comment state reaches the same states. *)
Definition html_step (st : tstate) (c0 : ascii) : tstate * list token :=
  let c := cr_to_lf c0 in
  match st with
  | Data => (data_reconsume c, [])
  | TagOpen =>
      if is_alpha c then (TagName (StartTag (String (to_lower c) EmptyString)), [])
      else if decide (c = "/"%char) then (EndTagOpen, [])
      else if decide (c = "!"%char) then (MarkupDecl, [])
      else if decide (c = "?"%char) then (Bogus, [])
      (* the [<] was text; [c] is reconsumed in the data state *)
      else (data_reconsume c, [])
  | EndTagOpen =>
      if is_alpha c then (TagName (EndTag (String (to_lower c) EmptyString)), [])
      else if decide (c = ">"%char) then (Data, [])
      else (bogus_reconsume c, [])
  | TagName tk =>
      if is_html_ws c then (BeforeAttrName tk, [])
      else if decide (c = "/"%char) then (SelfClosing tk, [])
      else if decide (c = ">"%char) then (after_tag tk, [tk])
      else (TagName (push_name tk c), [])
  | BeforeAttrName tk | AfterQuoted tk | SelfClosing tk => before_attr_name tk c
  | AttrName tk | AfterAttrName tk => attr_name tk c
  | BeforeValue tk =>
      if is_html_ws c then (BeforeValue tk, [])
      else if decide (c = "034"%char) then (Quoted tk true, [])
      else if decide (c = "'"%char) then (Quoted tk false, [])
      else if decide (c = ">"%char) then (after_tag tk, [tk])
      else (Unquoted tk, [])
  | Quoted tk dq =>
      (if decide (c = if dq then "034"%char else "'"%char) then AfterQuoted tk else Quoted tk dq, [])
  | Unquoted tk =>
      if is_html_ws c then (BeforeAttrName tk, [])
      else if decide (c = ">"%char) then (after_tag tk, [tk])
      else (Unquoted tk, [])
  | Bogus => (bogus_reconsume c, [])
  (* [DOCTYPE] and [[CDATA[] end at the first [>] as a bogus comment does *)
  | MarkupDecl => (if decide (c = "-"%char) then MarkupDeclDash else bogus_reconsume c, [])
  | MarkupDeclDash => (if decide (c = "-"%char) then CommentStart else bogus_reconsume c, [])
  | CommentStart =>
      (if decide (c = "-"%char) then CommentStartDash
       else if decide (c = ">"%char) then Data else Comment, [])
  | CommentStartDash =>
      (if decide (c = "-"%char) then CommentEnd
       else if decide (c = ">"%char) then Data else Comment, [])
  | Comment => (comment_reconsume c, [])
  | CommentEndDash => (if decide (c = "-"%char) then CommentEnd else Comment, [])
  | CommentEnd =>
      (if decide (c = ">"%char) then Data
       else if decide (c = "!"%char) then CommentEndBang
       else if decide (c = "-"%char) then CommentEnd else Comment, [])
  | CommentEndBang =>
      (if decide (c = "-"%char) then CommentEndDash
       else if decide (c = ">"%char) then Data else Comment, [])
  | RawText t => (raw_reconsume t c, [])
  | RawLt t => (if decide (c = "/"%char) then RawEndOpen t else raw_reconsume t c, [])
  | RawEndOpen t =>
      (if is_alpha c then RawEndName t (String (to_lower c) EmptyString)
       else raw_reconsume t c, [])
  | RawEndName t buf =>
      (* only the end tag of [t] (an "appropriate end tag") ends the text *)
      if is_alpha c then (RawEndName t (buf +:+ String (to_lower c) EmptyString), [])
      else if bool_decide (buf = t) && is_html_ws c then (BeforeAttrName (EndTag t), [])
      else if bool_decide (buf = t) && bool_decide (c = "/"%char) then (SelfClosing (EndTag t), [])
      else if bool_decide (buf = t) && bool_decide (c = ">"%char) then (Data, [EndTag t])
      else (raw_reconsume t c, [])
  | Plaintext => (Plaintext, [])
  end.

Fixpoint html_run (st : tstate) (s : list ascii) : tstate * list token :=
  match s with
  | [] => (st, [])
  | c :: r =>
      let '(st1, o1) := html_step st c in
      let '(st2, o2) := html_run st1 r in
      (st2, o1 ++ o2)
  end.

(** The tags of a fragment assigned to [innerHTML]. *)
Definition html_tokens (html : string) : list token :=
  (html_run Data (String.list_ascii_of_string html)).2.

(** Text that leaves the tokenizer in the data state: every tag it opens
    is closed. *)
Definition html_closed (html : string) : bool :=
  bool_decide ((html_run Data (String.list_ascii_of_string html)).1 = Data).

(** ** Lemmas *)

Lemma list_ascii_of_string_app (a b : string) :
  String.list_ascii_of_string (a +:+ b) =
    String.list_ascii_of_string a ++ String.list_ascii_of_string b.
Proof. induction a as [|c a IH]; [done|]. rewrite string_app_cons. simpl. by rewrite IH. Qed.

Lemma cr_to_lf_ne c x : x <> "010"%char -> c <> x -> cr_to_lf c <> x.
Proof. unfold cr_to_lf. intros Hx Hc. by case_decide. Qed.

(** After a line feed, a second one changes nothing. *)
Lemma html_step_lf_lf st :
  let st' := (html_step st "010"%char).1 in html_step st' "010"%char = (st', []).
Proof.
  destruct st; try destruct dq; simpl; try reflexivity;
    repeat (case_decide || case_bool_decide); simpl; try reflexivity; destruct tk; reflexivity.
Qed.

(** A state that only a character [x] other than a line feed leaves:
    CR, read as LF, is not [x] either. *)
Ltac stays_but :=
  intros ? ?; simpl; unfold data_reconsume, comment_reconsume, raw_reconsume;
  rewrite decide_False; [done|]; by apply cr_to_lf_ne.

(** Text each of whose characters leaves the state as it is, silently. *)
Lemma html_run_stay st s r :
  Forall (fun c => html_step st c = (st, [])) s -> html_run st (s ++ r) = html_run st r.
Proof.
  induction 1 as [|c s Hc _ IH]; [done|]. simpl. rewrite Hc, IH.
  by destruct (html_run st r).
Qed.

Lemma stay_avoiding st (x : ascii) s :
  (forall c, c <> x -> html_step st c = (st, [])) -> x ∉ s ->
  Forall (fun c => html_step st c = (st, [])) s.
Proof.
  intros Hst Hs. apply Forall_forall. intros c Hc. apply Hst. by intros ->.
Qed.

(** Text without [<] leaves the data state silent. *)
Lemma html_run_text s r :
  "<"%char ∉ s -> html_run Data (s ++ r) = html_run Data r.
Proof.
  intros Hs. apply html_run_stay, (stay_avoiding _ "<"%char); [|done].
  stays_but.
Qed.

Lemma html_run_app st l1 l2 :
  html_run st (l1 ++ l2) =
    let '(st1, o1) := html_run st l1 in
    let '(st2, o2) := html_run st1 l2 in (st2, o1 ++ o2).
Proof.
  revert st. induction l1 as [|c l1 IH]; intros st; simpl.
  - by destruct (html_run st l2).
  - destruct (html_step st c) as [st1 o1]. rewrite IH.
    destruct (html_run st1 l1) as [st2 o2]. destruct (html_run st2 l2).
    by rewrite app_assoc.
Qed.

(** A closed fragment contributes its own tags and returns to data. *)
Lemma html_run_closed s r :
  html_closed s = true ->
  html_run Data (String.list_ascii_of_string s ++ r) =
    let '(st, o) := html_run Data r in (st, html_tokens s ++ o).
Proof.
  unfold html_closed, html_tokens. rewrite bool_decide_eq_true, html_run_app.
  destruct (html_run Data _) as [st o]. simpl. by intros ->.
Qed.

Lemma html_run_closed_nil s :
  html_closed s = true ->
  html_run Data (String.list_ascii_of_string s) = (Data, html_tokens s).
Proof.
  unfold html_closed, html_tokens. rewrite bool_decide_eq_true.
  destruct (html_run Data _) as [st o]. simpl. by intros ->.
Qed.

Section Templates.
Context (name email city : string).
Hypothesis (Hn : html_closed name = true) (He : html_closed email = true)
  (Hc : html_closed city = true).

Lemma card_run :
  html_run Data (String.list_ascii_of_string (card_template name email city)) =
    (Data, [StartTag "h3"] ++ html_tokens name ++
           [EndTag "h3"; StartTag "p"; StartTag "strong"; EndTag "strong"] ++ html_tokens email ++
           [EndTag "p"; StartTag "p"; StartTag "strong"; EndTag "strong"] ++ html_tokens city ++
           [EndTag "p"]).
Proof.
  unfold card_template. rewrite !list_ascii_of_string_app.
  repeat rewrite html_run_closed by (done || reflexivity).
  rewrite html_run_closed_nil by reflexivity. reflexivity.
Qed.
(** C14: the markup a card's [innerHTML] assignment parses is the
    template's tags with the tags of the user's name, email and city
    spliced in where the template interpolates them (dom.js lines 7-11):
    markup in the API data becomes elements of the card. *)
Theorem card_tokens :
  html_tokens (card_template name email city) =
    [StartTag "h3"] ++ html_tokens name ++
    [EndTag "h3"; StartTag "p"; StartTag "strong"; EndTag "strong"] ++ html_tokens email ++
    [EndTag "p"; StartTag "p"; StartTag "strong"; EndTag "strong"] ++ html_tokens city ++
    [EndTag "p"].
Proof. unfold html_tokens at 1. by rewrite card_run. Qed.

End Templates.

(** The opening tag of the error paragraph, attribute included. *)
Definition error_open : string := "<p style=" +:+ dquote +:+ "color:red;" +:+ dquote +:+ ">".

Lemma error_html_split m : error_html m = error_open +:+ m +:+ "</p>".
Proof. unfold error_html, error_open. by rewrite !string_app_assoc. Qed.

Lemma error_run m :
  html_closed m = true ->
  html_run Data (String.list_ascii_of_string (error_html m)) =
    (Data, [StartTag "p"] ++ html_tokens m ++ [EndTag "p"]).
Proof.
  intros Hm. rewrite error_html_split, !list_ascii_of_string_app.
  rewrite html_run_closed by reflexivity. rewrite html_run_closed by done.
  by rewrite html_run_closed_nil by reflexivity.
Qed.

(** C15: the markup [displayError] assigns (dom.js line 17) is the red
    paragraph with the tags of the message inside it. *)
Theorem error_tokens m :
  html_closed m = true ->
  html_tokens (error_html m) = [StartTag "p"] ++ html_tokens m ++ [EndTag "p"].
Proof. intros Hm. unfold html_tokens at 1. by rewrite error_run. Qed.

(** Text without [<]: no tag, and the tokenizer back in the data state. *)
Lemma html_text_closed s :
  "<"%char ∉ String.list_ascii_of_string s -> html_closed s = true /\ html_tokens s = [].
Proof.
  intros Hs. unfold html_closed, html_tokens.
  rewrite <- (app_nil_r (String.list_ascii_of_string s)), html_run_text by done.
  split; [by apply bool_decide_eq_true|done].
Qed.

(** C16: when the name, email and city hold no [<], the card's markup is
    exactly the template's: two paragraphs and a heading, no element from
    the data. *)
Theorem card_tokens_text name email city :
  "<"%char ∉ String.list_ascii_of_string name ->
  "<"%char ∉ String.list_ascii_of_string email ->
  "<"%char ∉ String.list_ascii_of_string city ->
  html_tokens (card_template name email city) =
    [StartTag "h3"; EndTag "h3"; StartTag "p"; StartTag "strong"; EndTag "strong"; EndTag "p";
     StartTag "p"; StartTag "strong"; EndTag "strong"; EndTag "p"].
Proof.
  intros [Hn Tn]%html_text_closed [He Te]%html_text_closed [Hc Tc]%html_text_closed.
  unfold html_tokens at 1. by rewrite card_run, Tn, Te, Tc.
Qed.

(** ** Markup that swallows the rest of the card *)

(** The comment states. *)
Definition in_comment (st : tstate) : bool :=
  match st with
  | CommentStart | CommentStartDash | Comment | CommentEndDash | CommentEnd | CommentEndBang => true
  | _ => false
  end.

(** Text ending where the tokenizer is back in [st], with no tag. *)
Definition silent (st : tstate) (l : list ascii) : Prop := html_run st l = (st, []).

#[global] Instance silent_dec st l : Decision (silent st l).
Proof. unfold silent. apply _. Defined.

Lemma silent_app st l1 l2 : silent st l1 -> silent st l2 -> silent st (l1 ++ l2).
Proof. unfold silent. intros H1 H2. rewrite html_run_app, H1. simpl. by rewrite H2. Qed.

Lemma silent_avoiding st (x : ascii) s :
  (forall c, c <> x -> html_step st c = (st, [])) -> x ∉ s -> silent st s.
Proof.
  intros Hst Hs. unfold silent. rewrite <- (app_nil_r s), html_run_stay; [done|].
  by apply (stay_avoiding _ x).
Qed.

(** A comment runs to the first [-]. *)
Lemma silent_comment s : "-"%char ∉ s -> silent Comment s.
Proof.
  apply silent_avoiding. stays_but.
Qed.

(** Raw text runs to the first [<]. *)
Lemma silent_raw t s : "<"%char ∉ s -> silent (RawText t) s.
Proof.
  apply silent_avoiding. stays_but.
Qed.

(** The card template around the name. *)
Definition card_head : string := newline +:+ indent12 +:+ "<h3>".
Definition card_piece1 : string :=
  "</h3>" +:+ newline +:+ indent12 +:+ "<p><strong>Email:</strong> ".
Definition card_piece2 : string :=
  "</p>" +:+ newline +:+ indent12 +:+ "<p><strong>Ville:</strong> ".
Definition card_piece3 : string := "</p>" +:+ newline +:+ indent8.

Definition card_rest (email city : string) : list ascii :=
  String.list_ascii_of_string card_piece1 ++ String.list_ascii_of_string email ++
  String.list_ascii_of_string card_piece2 ++ String.list_ascii_of_string city ++
  String.list_ascii_of_string card_piece3.

Lemma card_template_split name email city :
  String.list_ascii_of_string (card_template name email city) =
    String.list_ascii_of_string card_head ++ String.list_ascii_of_string name ++ card_rest email city.
Proof.
  unfold card_template, card_head, card_rest, card_piece1, card_piece2, card_piece3.
  rewrite !list_ascii_of_string_app. by rewrite <- !app_assoc.
Qed.

(** When the name leaves the tokenizer in [st] and the rest of the card
    emits no tag from there, the card's tags are the heading's start tag
    and the name's. *)
Lemma card_tokens_swallowed name email city st tn :
  html_run Data (String.list_ascii_of_string name) = (st, tn) ->
  (html_run st (card_rest email city)).2 = [] ->
  html_tokens (card_template name email city) = StartTag "h3" :: tn.
Proof.
  intros Hn Hr. unfold html_tokens. rewrite card_template_split, html_run_app.
  change (html_run Data (String.list_ascii_of_string card_head)) with (Data, [StartTag "h3"]).
  cbv beta iota. rewrite html_run_app, Hn. destruct (html_run st (card_rest email city)) as [st' o].
  simpl in *. by rewrite Hr, app_nil_r.
Qed.

(** From a raw-text state of a raw tag, the rest of a card whose email and
    city hold no [<] is text. *)
Lemma card_rest_raw t email city :
  t ∈ raw_tags -> "<"%char ∉ String.list_ascii_of_string email ->
  "<"%char ∉ String.list_ascii_of_string city -> silent (RawText t) (card_rest email city).
Proof.
  intros Ht He Hc.
  assert (Hp : Forall (fun t => silent (RawText t) (String.list_ascii_of_string card_piece1) /\
                                silent (RawText t) (String.list_ascii_of_string card_piece2) /\
                                silent (RawText t) (String.list_ascii_of_string card_piece3))
                      raw_tags) by vm_decide.
  destruct (proj1 (Forall_forall _ _) Hp t Ht) as (P1 & P2 & P3).
  unfold card_rest. repeat apply silent_app; auto using silent_raw.
Qed.

(** The rest of the card opens with the [<] of [</h3>]. *)
Definition card_piece1_tail : list ascii :=
  String.list_ascii_of_string ("/h3>" +:+ newline +:+ indent12 +:+ "<p><strong>Email:</strong> ").

Lemma card_rest_lt email city :
  card_rest email city =
    "<"%char :: card_piece1_tail ++ String.list_ascii_of_string email ++
      String.list_ascii_of_string card_piece2 ++ String.list_ascii_of_string city ++
      String.list_ascii_of_string card_piece3.
Proof. reflexivity. Qed.

(** In a comment, the rest of a card whose email and city hold no [-] is
    comment text. *)
Lemma card_rest_comment email city :
  "-"%char ∉ String.list_ascii_of_string email -> "-"%char ∉ String.list_ascii_of_string city ->
  silent Comment (card_piece1_tail ++ String.list_ascii_of_string email ++
      String.list_ascii_of_string card_piece2 ++ String.list_ascii_of_string city ++
      String.list_ascii_of_string card_piece3).
Proof.
  intros He Hc.
  repeat apply silent_app; apply silent_comment; [vm_decide|done|vm_decide|done|vm_decide].
Qed.

(** From a comment state, the rest of a card whose email and city hold
    no [-] emits no tag. *)
Lemma card_rest_comment_silent st email city :
  in_comment st = true ->
  "-"%char ∉ String.list_ascii_of_string email -> "-"%char ∉ String.list_ascii_of_string city ->
  (html_run st (card_rest email city)).2 = [].
Proof.
  intros Hst He Hc. rewrite card_rest_lt. cbn [html_run].
  replace (html_step st "<"%char) with (Comment, @nil token) by (destruct st; done).
  by rewrite (card_rest_comment email city He Hc).
Qed.

(** The start tag of a raw tag leaves the tokenizer in its text. *)
Lemma raw_open_run t :
  t ∈ raw_tags ->
  html_run Data (String.list_ascii_of_string ("<" +:+ t +:+ ">")) = (RawText t, [StartTag t]).
Proof. intros Ht. revert t Ht. apply Forall_forall. vm_decide. Qed.

(** C22: a comment opened in the name ([<!--], as in [Leanne <!--])
    turns the rest of the card into that comment: when the email and city
    hold no [-], the card's markup has no tag after the name's, so the
    heading is never closed and the email and city paragraphs never reach
    the page. *)
Theorem card_tokens_comment name email city :
  html_closed name = true ->
  "-"%char ∉ String.list_ascii_of_string email -> "-"%char ∉ String.list_ascii_of_string city ->
  html_tokens (card_template (name +:+ "<!--") email city) = StartTag "h3" :: html_tokens name.
Proof.
  intros Hn He Hc. apply (card_tokens_swallowed _ _ _ CommentStart).
  - rewrite list_ascii_of_string_app, html_run_closed by done.
    change (html_run Data (String.list_ascii_of_string "<!--")) with (CommentStart, @nil token).
    cbv beta iota. by rewrite app_nil_r.
  - by apply card_rest_comment_silent.
Qed.


(** ** Examples *)

Definition img_payload : string := "<img src=x onerror=alert(1)>".

Lemma card_tokens_witness :
  html_tokens (card_template img_payload "Sincere@april.biz" "Gwenborough") =
    [StartTag "h3"; StartTag "img"; EndTag "h3"; StartTag "p"; StartTag "strong";
     EndTag "strong"; EndTag "p"; StartTag "p"; StartTag "strong"; EndTag "strong"; EndTag "p"].
Proof.
  rewrite (card_tokens img_payload "Sincere@april.biz" "Gwenborough"); reflexivity.
Defined.

Lemma error_tokens_witness :
  html_tokens (error_html "Unexpected token <b>x</b>") =
    [StartTag "p"; StartTag "b"; EndTag "b"; EndTag "p"].
Proof. rewrite (error_tokens "Unexpected token <b>x</b>"); reflexivity. Defined.

Lemma card_tokens_text_witness :
  html_tokens (card_template "Leanne Graham" "Sincere@april.biz" "Gwenborough") =
    [StartTag "h3"; EndTag "h3"; StartTag "p"; StartTag "strong"; EndTag "strong"; EndTag "p";
     StartTag "p"; StartTag "strong"; EndTag "strong"; EndTag "p"].
Proof. apply card_tokens_text; vm_decide. Defined.

Lemma card_tokens_comment_witness :
  html_tokens (card_template ("Leanne " +:+ "<!--") "Sincere@april.biz" "Gwenborough") =
    [StartTag "h3"].
Proof. apply (card_tokens_comment "Leanne "); vm_decide. Defined.


(** An [=] before any attribute name starts a name, not a value: the
    quote after it belongs to that name and the first [>] ends the tag,
    while the quote after [x=] opens a value that keeps the second tag
    open to the end. *)
Example attr_equals_name :
  html_tokens ("<a =" +:+ dquote +:+ "><b x=" +:+ dquote +:+ ">") = [StartTag "a"] /\
  html_closed ("<a =" +:+ dquote +:+ "><b x=" +:+ dquote +:+ ">") = false.
Proof. split; vm_compute; reflexivity. Qed.

(** A carriage return ends a tag name as a line feed does. *)
Example cr_ends_tag_name :
  html_tokens (String.string_of_list_ascii (String.list_ascii_of_string "<img" ++ ["013"%char] ++ String.list_ascii_of_string "src=x>")) =
    [StartTag "img"].
Proof. vm_compute. reflexivity. Qed.
