(* ===== verification/HtmlTree.v ===== *)
(** * The tree construction stage behind the [innerHTML] setter

    After the tokenizer ([Html]), the fragment parser builds elements from
    the tokens with a stack of open elements, following the "in body"
    insertion mode of the HTML standard (section 13.2.6.4.7): a start tag
    opens an element (a void element such as [img] is inserted closed); a
    start tag of a block ([p], [div], [h1]-[h6], lists, ...) first closes an
    open [p]; a heading start tag also closes a heading that is the current
    node; an end tag closes the innermost open element of its name and
    those inside it, and is ignored when none is open; a [</p>] with no
    open [p] inserts an empty [p], and a [</br>] acts as a [<br>].  The
    start tags of table parts, [col], [head], [frame], [html], [body] and
    [frameset] are ignored in a fragment parsed for a [div], and [image]
    is read as [img].  At the end of the fragment the open
    elements are closed.  [html_tree] gives the parsed forest of elements
    (text nodes are not kept).

    The theorems give the elements of a card and of the error paragraph,
    show that void tags in the user's fields become elements of the card
    ([img] with its [onerror] among them), that an end tag in the data
    changes the card's structure, and that a raw-text element opened in
    the name takes the rest of the card as its text.

    Simplified: the scope of an element is the whole stack (the scope
    boundaries [table], [td], [template], ... and the "special" elements
    that stop an end tag are not modelled), and the extra rules of [li],
    [dd], [dt], formatting elements and tables are left out; none of these
    occurs in the templates. *)

From S2P Require Import Prelude JsRuntime Dom Html.
From Stdlib Require Import Ascii.

(** ** Data *)

Inductive hnode : Type := HElem (tag : string) (kids : list hnode).

#[global] Instance hnode_eq_dec : EqDecision hnode.
Proof.
  refine (
    fix go (x y : hnode) {struct x} : Decision (x = y) :=
      match x, y with
      | HElem t ks, HElem t' ks' =>
          match decide (t = t') with
          | left Ht =>
              match (fix go_list (l l' : list hnode) {struct l} : Decision (l = l') :=
                       match l, l' with
                       | [], [] => left eq_refl
                       | a :: l, a' :: l' =>
                           match go a a', go_list l l' with
                           | left Ha, left Hl => left _
                           | right Ha, _ => right _
                           | _, right Hl => right _
                           end
                       | [], _ :: _ => right _
                       | _ :: _, [] => right _
                       end) ks ks' with
              | left Hk => left _
              | right Hk => right _
              end
          | right Ht => right _
          end
      end); congruence.
Defined.

(** The elements of a forest, nested ones included. *)
Fixpoint hsize (n : hnode) : nat :=
  match n with HElem _ ks => S (sum_list_with hsize ks) end.

Definition fsize (ns : list hnode) : nat := sum_list_with hsize ns.

(** The builder: the open elements, innermost first, each with its
    children so far (latest first), and the closed top-level nodes of the
    fragment (latest first). *)
Record builder : Type := mkBuilder {
  tb_open : list (string * list hnode);
  tb_root : list hnode
}.

Definition tb_empty : builder := mkBuilder [] [].

(** The start tags "in body" inserts and pops at once: those of its own
    rules and the void ones it processes by the "in head" rules. *)
Definition void_tags : list string :=
  ["area"; "base"; "basefont"; "bgsound"; "br"; "embed"; "hr"; "img"; "input"; "keygen";
   "link"; "meta"; "param"; "source"; "track"; "wbr"].

(** The start tags "in body" ignores in a fragment parsed for a [div]:
    the table parts and [head], [frame], [col] always, and [html], [body],
    [frameset], whose rules act only on a [body] element, which the stack
    of such a fragment never holds. *)
Definition ignored_start_tags : list string :=
  ["caption"; "col"; "colgroup"; "frame"; "head"; "tbody"; "td"; "tfoot"; "th"; "thead"; "tr";
   "html"; "body"; "frameset"].

Definition heading_tags : list string := ["h1"; "h2"; "h3"; "h4"; "h5"; "h6"].

(** The start tags that close an open [p] first. *)
Definition closes_p_tags : list string :=
  ["address"; "article"; "aside"; "blockquote"; "center"; "details"; "dialog"; "dir";
   "div"; "dl"; "fieldset"; "figcaption"; "figure"; "footer"; "header"; "hgroup";
   "main"; "menu"; "nav"; "ol"; "p"; "search"; "section"; "summary"; "ul";
   "pre"; "listing"; "form"; "plaintext"; "table"; "hr"; "xmp"] ++ heading_tags.

Definition is_in (t : string) (ts : list string) : bool := bool_decide (t ∈ ts).

(** ** Operations on the stack of open elements *)

(** Append a node to the current node, or to the fragment. *)
Definition insert (n : hnode) (b : builder) : builder :=
  match tb_open b with
  | (t, ks) :: fs => mkBuilder ((t, n :: ks) :: fs) (tb_root b)
  | [] => mkBuilder [] (n :: tb_root b)
  end.

Definition push (t : string) (b : builder) : builder :=
  mkBuilder ((t, []) :: tb_open b) (tb_root b).

(** Whether an open element satisfies [P]. *)
Definition has_open (P : string -> bool) (b : builder) : bool :=
  existsb (fun f => P f.1) (tb_open b).

(** Pop elements up to and including the innermost one satisfying [P];
    [carry] is the element just closed, a child of the next one. *)
Fixpoint close_to (P : string -> bool) (carry : list hnode)
    (fs : list (string * list hnode)) (root : list hnode) : builder :=
  match fs with
  | [] => mkBuilder [] (carry ++ root)
  | (t, ks) :: fs' =>
      let n := HElem t (rev (carry ++ ks)) in
      if P t then insert n (mkBuilder fs' root)
      else close_to P [n] fs' root
  end.

Definition close (P : string -> bool) (b : builder) : builder :=
  close_to P [] (tb_open b) (tb_root b).

Definition is_tag (t : string) (t' : string) : bool := bool_decide (t' = t).

(** The end of the fragment: every open element is closed. *)
Fixpoint close_all (carry : list hnode) (fs : list (string * list hnode))
    (root : list hnode) : list hnode :=
  match fs with
  | [] => rev (carry ++ root)
  | (t, ks) :: fs' => close_all [HElem t (rev (carry ++ ks))] fs' root
  end.

Definition finish (b : builder) : list hnode := close_all [] (tb_open b) (tb_root b).

(** ** The "in body" insertion mode *)

(** A start tag of a block closes an open [p]. *)
Definition close_p_before (t : string) (b : builder) : builder :=
  if is_in t closes_p_tags && has_open (is_tag "p") b then close (is_tag "p") b else b.

(** A heading start tag closes a heading that is the current node. *)
Definition close_heading_before (t : string) (b : builder) : builder :=
  match tb_open b with
  | (t', _) :: _ =>
      if is_in t heading_tags && is_in t' heading_tags then close (fun _ => true) b else b
  | [] => b
  end.

(** A start tag: [image] is read as [img]; an ignored tag changes
    nothing. *)
Definition start_tag (t0 : string) (b : builder) : builder :=
  let t := if bool_decide (t0 = "image") then "img" else t0 in
  if is_in t ignored_start_tags then b
  else
    let b' := close_heading_before t (close_p_before t b) in
    if is_in t void_tags then insert (HElem t []) b' else push t b'.

(** An end tag: [</br>] acts as a [<br>] start tag. *)
Definition end_tag (t : string) (b : builder) : builder :=
  if bool_decide (t = "br") then start_tag "br" b
  else if bool_decide (t = "p") then
    if has_open (is_tag "p") b then close (is_tag "p") b
    else insert (HElem "p" []) b
  else if is_in t heading_tags then
    if has_open (fun t' => is_in t' heading_tags) b
    then close (fun t' => is_in t' heading_tags) b else b
  else if has_open (is_tag t) b then close (is_tag t) b else b.

Definition tree_step (b : builder) (tk : token) : builder :=
  match tk with
  | StartTag t => start_tag t b
  | EndTag t => end_tag t b
  end.

Definition tree_run (b : builder) (ts : list token) : builder := foldl tree_step b ts.

(** The elements the [innerHTML] setter builds from [html]. *)
Definition html_tree (html : string) : list hnode :=
  finish (tree_run tb_empty (html_tokens html)).

(** A start tag of a void element that closes no [p]: it is inserted
    where it stands. *)
Definition inline_void (tk : token) : bool :=
  match tk with
  | StartTag t => is_in t void_tags && negb (is_in t closes_p_tags)
  | EndTag _ => false
  end.

Definition void_node (tk : token) : hnode :=
  match tk with StartTag t | EndTag t => HElem t [] end.

(** ** Lemmas: the builder *)

Lemma tree_run_app b ts1 ts2 : tree_run b (ts1 ++ ts2) = tree_run (tree_run b ts1) ts2.
Proof. apply foldl_app. Qed.

Lemma void_not_ignored v :
  v ∈ void_tags -> v <> "image" /\ is_in v ignored_start_tags = false.
Proof. revert v. apply Forall_forall. vm_decide. Qed.

Lemma inline_void_start v :
  inline_void (StartTag v) = true ->
  v <> "image" /\ is_in v ignored_start_tags = false /\
  is_in v void_tags = true /\ is_in v closes_p_tags = false /\ is_in v heading_tags = false.
Proof.
  simpl. rewrite andb_true_iff, negb_true_iff. intros [Hv Hp].
  destruct (void_not_ignored v) as [Hi Hg]; [unfold is_in in Hv; by apply bool_decide_eq_true in Hv|].
  split_and!; [done|done|done|done|].
  unfold is_in in *. apply bool_decide_eq_false_2. intros Hin.
  apply bool_decide_eq_false_1 in Hp. apply Hp. unfold closes_p_tags. set_solver.
Qed.

Lemma tree_run_inline_voids t ks fs root ts :
  Forall (fun tk => inline_void tk = true) ts ->
  tree_run (mkBuilder ((t, ks) :: fs) root) ts =
    mkBuilder ((t, rev (map void_node ts) ++ ks) :: fs) root.
Proof.
  intros Hts. revert ks. induction Hts as [|[v|v] ts Hv _ IH]; intros ks; [done| |done].
  destruct (inline_void_start v Hv) as (H0 & Hg & H1 & H2 & H3).
  unfold tree_run in *. simpl. unfold start_tag, close_p_before, close_heading_before.
  rewrite (bool_decide_false (v = "image")) by done. simpl. rewrite Hg, H1, H2, H3. simpl. unfold insert. simpl.
  rewrite IH. by rewrite <- app_assoc.
Qed.

Lemma tree_run_cons b tk ts : tree_run b (tk :: ts) = tree_run (tree_step b tk) ts.
Proof. reflexivity. Qed.

Lemma tree_run_nil b : tree_run b [] = b.
Proof. reflexivity. Qed.

(** The template's own tags, around the interpolated fields. *)
Lemma tree_run_h3 :
  tree_run tb_empty [StartTag "h3"] = mkBuilder [("h3", [])] [].
Proof. reflexivity. Qed.

Lemma tree_run_after_h3 ks :
  tree_run (mkBuilder [("h3", ks)] [])
    [EndTag "h3"; StartTag "p"; StartTag "strong"; EndTag "strong"] =
  mkBuilder [("p", [HElem "strong" []])] [HElem "h3" (rev ks)].
Proof. reflexivity. Qed.

Lemma tree_run_next_p ks root :
  tree_run (mkBuilder [("p", ks)] root)
    [EndTag "p"; StartTag "p"; StartTag "strong"; EndTag "strong"] =
  mkBuilder [("p", [HElem "strong" []])] (HElem "p" (rev ks) :: root).
Proof. reflexivity. Qed.

Lemma tree_run_end_p ks root :
  tree_run (mkBuilder [("p", ks)] root) [EndTag "p"] = mkBuilder [] (HElem "p" (rev ks) :: root).
Proof. reflexivity. Qed.

(** A [</p>] with no open [p] inserts an empty one. *)
Lemma tree_run_stray_next root :
  tree_run (mkBuilder [] root) [EndTag "p"; StartTag "p"; StartTag "strong"; EndTag "strong"] =
  mkBuilder [("p", [HElem "strong" []])] (HElem "p" [] :: root).
Proof. reflexivity. Qed.

Lemma rev_voids_snoc ts (x : hnode) : rev (rev (map void_node ts) ++ [x]) = x :: map void_node ts.
Proof. by rewrite rev_app_distr, rev_involutive. Qed.

Section CardTree.
Context (name email city : string).
Hypothesis (Hn : html_closed name = true) (He : html_closed email = true)
  (Hc : html_closed city = true).
Hypothesis (Vn : Forall (fun tk => inline_void tk = true) (html_tokens name))
  (Ve : Forall (fun tk => inline_void tk = true) (html_tokens email))
  (Vc : Forall (fun tk => inline_void tk = true) (html_tokens city)).

(** C19: the elements the [innerHTML] setter builds for a card are the
    template's heading and two paragraphs, with an element for every void
    tag of the name, the email and the city ([img], [br], [input], ...)
    inside the heading or the paragraph where the field is interpolated. *)
Theorem card_tree :
  html_tree (card_template name email city) =
    [HElem "h3" (map void_node (html_tokens name));
     HElem "p" (HElem "strong" [] :: map void_node (html_tokens email));
     HElem "p" (HElem "strong" [] :: map void_node (html_tokens city))].
Proof.
  unfold html_tree, html_tokens at 1. rewrite card_run by done. cbn [snd].
  rewrite !tree_run_app, tree_run_h3, tree_run_inline_voids by done.
  rewrite app_nil_r, tree_run_after_h3, tree_run_inline_voids by done.
  rewrite tree_run_next_p, tree_run_inline_voids by done.
  rewrite tree_run_end_p. unfold finish. cbn [close_all tb_open tb_root app rev].
  by rewrite !rev_voids_snoc, rev_involutive.
Qed.
End CardTree.

Section StrayEnd.
Context (name email city : string).
Hypothesis (Hn : html_closed name = true) (He : html_closed email = true)
  (Hc : html_closed city = true).
Hypothesis (Vn : Forall (fun tk => inline_void tk = true) (html_tokens name))
  (Vc : Forall (fun tk => inline_void tk = true) (html_tokens city)).
Hypothesis (Te : html_tokens email = [EndTag "p"]).

(** C21: markup in the data restructures the card: an email holding a
    [</p>] closes the email paragraph where it is interpolated, and the
    template's own [</p>] (dom.js line 9) then finds no open [p] and
    inserts an empty one, so the card has four blocks instead of three. *)
Theorem card_tree_stray_end_p :
  html_tree (card_template name email city) =
    [HElem "h3" (map void_node (html_tokens name));
     HElem "p" [HElem "strong" []];
     HElem "p" [];
     HElem "p" (HElem "strong" [] :: map void_node (html_tokens city))].
Proof.
  unfold html_tree, html_tokens at 1. rewrite card_run by done. cbn [snd]. rewrite Te.
  rewrite !tree_run_app, tree_run_h3, tree_run_inline_voids by done.
  rewrite app_nil_r, tree_run_after_h3, tree_run_end_p, tree_run_stray_next.
  rewrite tree_run_inline_voids by done. rewrite tree_run_end_p.
  unfold finish. cbn [close_all tb_open tb_root app rev].
  by rewrite rev_voids_snoc, rev_involutive.
Qed.
End StrayEnd.

(** C20: the elements [displayError] builds are one paragraph, holding an
    element for every void tag of the message. *)
Theorem error_tree m :
  html_closed m = true -> Forall (fun tk => inline_void tk = true) (html_tokens m) ->
  html_tree (error_html m) = [HElem "p" (map void_node (html_tokens m))].
Proof.
  intros Hm Vm. unfold html_tree, html_tokens at 1. rewrite error_run by done. cbn [snd].
  rewrite !tree_run_app. change (tree_run tb_empty [StartTag "p"]) with (mkBuilder [("p", [])] []).
  rewrite tree_run_inline_voids by done. rewrite app_nil_r, tree_run_end_p.
  unfold finish. cbn [close_all tb_open tb_root app rev]. by rewrite rev_involutive.
Qed.

(** ** A raw-text element in the name *)

Lemma raw_name_tree t :
  t ∈ raw_tags -> finish (tree_run tb_empty [StartTag "h3"; StartTag t]) = [HElem "h3" [HElem t []]].
Proof. intros Ht. revert t Ht. apply Forall_forall. vm_decide. Qed.

(** C24: a user name that is the start tag of a raw-text element
    ([<textarea>], [<title>], [<style>], [<script>], ...) leaves a card
    whose only element is the heading holding that element: the rest of
    the template, the email and the city become its text, and the email
    and city paragraphs are not built. *)
Theorem card_tree_rawtext t email city :
  t ∈ raw_tags ->
  "<"%char ∉ String.list_ascii_of_string email -> "<"%char ∉ String.list_ascii_of_string city ->
  html_tree (card_template ("<" +:+ t +:+ ">") email city) = [HElem "h3" [HElem t []]].
Proof.
  intros Ht He Hc. unfold html_tree.
  rewrite (card_tokens_swallowed _ _ _ (RawText t) [StartTag t]); [by apply raw_name_tree|..].
  - by apply raw_open_run.
  - by rewrite (card_rest_raw t).
Qed.

(** ** Examples *)

Lemma card_tree_witness :
  html_tree (card_template img_payload "Sincere@april.biz" "Gwenborough") =
    [HElem "h3" [HElem "img" []]; HElem "p" [HElem "strong" []]; HElem "p" [HElem "strong" []]].
Proof.
  rewrite (card_tree img_payload "Sincere@april.biz" "Gwenborough") by vm_decide. vm_decide.
Defined.

Lemma error_tree_witness :
  html_tree (error_html "Failed<br>to fetch") = [HElem "p" [HElem "br" []]].
Proof.
  rewrite (error_tree "Failed<br>to fetch") by vm_decide. vm_decide.
Defined.

Lemma card_tree_stray_end_p_witness :
  html_tree (card_template "Leanne" "x</p>" "Gwenborough") =
    [HElem "h3" []; HElem "p" [HElem "strong" []]; HElem "p" []; HElem "p" [HElem "strong" []]].
Proof.
  rewrite (card_tree_stray_end_p "Leanne" "x</p>" "Gwenborough") by vm_decide. vm_decide.
Defined.

Lemma card_tree_rawtext_witness :
  html_tree (card_template "<title>" "Sincere@april.biz" "Gwenborough") = [HElem "h3" [HElem "title" []]].
Proof. apply (card_tree_rawtext "title"); vm_decide. Defined.

(** Ignored start tags, [image] and [</br>]. *)
Example in_body_rules :
  html_tree "<td><col><image src=x></br><tr>" = [HElem "img" []; HElem "br" []].
Proof. vm_compute. reflexivity. Qed.
