(* ===== verification/Api.v ===== *)
(** * api.js: [fetchUsers]

    [fetchUsers] is an async function with two await points, [fetch(url)]
    and [response.json()], inside a [try] whose [catch] rethrows.  It is
    modelled as a phase machine: [AwaitResponse] (waiting for the response
    headers), [AwaitBody r] (waiting for the body of [r] to be read and
    parsed), [Settled c] (its promise resolved or rejected with [c]).  The
    network is the environment: it answers the first await with a
    [fetch_result] and the second with a [body_read].  A response carries
    its status and its body text; [response.json()] parses the text with
    [json_parse] ([Json]).

    The theorems classify every outcome: the promise resolves with [v]
    exactly when the response has a 2xx status, its body is read and parses
    to [v]; an HTTP error status rejects with [Error('Erreur API')] without
    reading the body; a network failure, a failed body read or invalid
    JSON rejects with the runtime's TypeError or SyntaxError.  The
    [catch (error) { throw error; }] is proved to change nothing. *)

From S2P Require Import Prelude JsNumber JsRuntime Json.

(** ** The network *)

Definition users_url : string := "https://jsonplaceholder.typicode.com/users".

Record response : Type := mkResponse {
  resp_status : Z;
  resp_text : string
}.

(** [response.ok]: the status is in the range 200-299. *)
Definition response_ok (r : response) : bool :=
  bool_decide (200 <= resp_status r <= 299)%Z.

(** How [fetch] settles: a network failure, or the response headers. *)
Inductive fetch_result : Type :=
| NetworkError
| Got (r : response).

(** How reading the body for [response.json()] ends. *)
Inductive body_read : Type :=
| BodyComplete
| BodyFailed.

(** What the network delivers to a pending await. *)
Inductive net_event : Type :=
| EvResponse (o : fetch_result)
| EvBody (b : body_read).

(** ** The async function *)

Inductive fetch_phase : Type :=
| AwaitResponse
| AwaitBody (r : response)
| Settled (c : completion js_error value).

Section FetchUsers.
Context (eng : engine).

(** The call: issues [fetch(users_url)] and suspends at its await. *)
Definition fetchUsers_start : string * fetch_phase := (users_url, AwaitResponse).

(** api.js lines 4-6 after [await fetch(...)] settles: a rejected fetch
    throws at the await; a non-ok response throws [Error('Erreur API')];
    otherwise [response.json()] is called and awaited. *)
Definition after_fetch (o : fetch_result) : fetch_phase :=
  match o with
  | NetworkError => Settled (Throw (type_error (msg_fetch_failed eng)))
  | Got r =>
      if response_ok r then AwaitBody r
      else Settled (Throw (plain_error "Erreur API"))
  end.

(** api.js line 6 after [await response.json()] settles: the body text
    parsed by [JSON.parse] is returned; a failed read or a parse error is
    thrown. *)
Definition after_body (r : response) (b : body_read) : completion js_error value :=
  match b with
  | BodyFailed => Throw (type_error (msg_body_failed eng))
  | BodyComplete =>
      match json_parse (resp_text r) with
      | Some v => Normal v
      | None => Throw (syntax_error (msg_json_syntax eng (resp_text r)))
      end
  end.

(** api.js lines 7-9: [catch (error) { throw error; }]. *)
Definition fetchUsers_catch (e : js_error) : completion js_error value := Throw e.

(** The [try] around lines 4-6: a throw settles through the handler. *)
Definition with_catch (p : fetch_phase) : fetch_phase :=
  match p with
  | Settled (Throw e) => Settled (fetchUsers_catch e)
  | _ => p
  end.

(** One resumption of [fetchUsers]: [None] when the event is not what the
    pending await waits for. *)
Definition fetchUsers_step (p : fetch_phase) (ev : net_event) : option fetch_phase :=
  match p, ev with
  | AwaitResponse, EvResponse o => Some (with_catch (after_fetch o))
  | AwaitBody r, EvBody b => Some (with_catch (Settled (after_body r b)))
  | _, _ => None
  end.

(** Deliver events in order; stops at the first one not awaited. *)
Fixpoint fetchUsers_run (p : fetch_phase) (evs : list net_event) : option fetch_phase :=
  match evs with
  | [] => Some p
  | ev :: evs' =>
      match fetchUsers_step p ev with
      | Some p' => fetchUsers_run p' evs'
      | None => None
      end
  end.

End FetchUsers.

Section FetchClaims.
Context (eng : engine).

(** The runs of [fetchUsers] from its call: nothing delivered yet, the
    response delivered, or the response of an ok status then the body.
    A settled promise accepts no further event. *)
Lemma fetchUsers_run_cases evs p :
  fetchUsers_run eng AwaitResponse evs = Some p ->
  (evs = [] /\ p = AwaitResponse) \/
  (exists o, evs = [EvResponse o] /\ p = after_fetch eng o) \/
  (exists r b, evs = [EvResponse (Got r); EvBody b] /\ response_ok r = true /\
               p = Settled (after_body eng r b)).
Proof.
  destruct evs as [|[[|r]|b] evs]; simpl; [intros [=<-]; by left| | |done].
  - destruct evs as [|ev evs]; simpl; [intros [=<-]; right; left; eauto|].
    by destruct ev.
  - destruct (response_ok r) eqn:Hok; simpl.
    + destruct evs as [|[o'|b] evs]; simpl; [intros [=<-]; right; left; exists (Got r);
        simpl; by rewrite Hok|done|].
      destruct evs as [|ev evs]; simpl.
      * intros [=<-]. right; right. exists r, b. split_and!; [done|done|]. by destruct (after_body eng r b).
      * destruct (after_body eng r b), ev; done.
    + destruct evs as [|ev evs]; simpl.
      * intros [=<-]. right; left. exists (Got r). simpl. by rewrite Hok.
      * by destruct ev.
Qed.

(** C3: [fetchUsers] resolves with [v] exactly when [fetch] gives a
    response with a 2xx status whose body is read completely and whose
    text [JSON.parse] parses to [v]. *)
Theorem fetchUsers_resolves_iff evs v :
  fetchUsers_run eng AwaitResponse evs = Some (Settled (Normal v)) <->
  exists r, evs = [EvResponse (Got r); EvBody BodyComplete] /\
    response_ok r = true /\ json_parse (resp_text r) = Some v.
Proof.
  split.
  - intros H. destruct (fetchUsers_run_cases _ _ H)
      as [[_ ?]|[(o & -> & Ho)|(r & b & -> & Hok & Hb)]]; [done| |].
    + destruct o as [|r]; simpl in Ho; [done|]. by destruct (response_ok r).
    + exists r. simplify_eq. destruct b; simpl in Hb; [|done].
      destruct (json_parse (resp_text r)); simplify_eq; done.
  - intros (r & -> & Hok & Hb). simpl. rewrite Hok. simpl. by rewrite Hb.
Qed.

(** C4: the errors [fetchUsers] rejects with: the runtime's TypeError on
    a network failure or a failed body read, [Error('Erreur API')] on a
    non-2xx status, the SyntaxError of [JSON.parse] on an invalid body. *)
Theorem fetchUsers_rejects_iff evs e :
  fetchUsers_run eng AwaitResponse evs = Some (Settled (Throw e)) <->
  (evs = [EvResponse NetworkError] /\ e = type_error (msg_fetch_failed eng)) \/
  (exists r, evs = [EvResponse (Got r)] /\ response_ok r = false /\
             e = plain_error "Erreur API") \/
  (exists r, evs = [EvResponse (Got r); EvBody BodyFailed] /\ response_ok r = true /\
             e = type_error (msg_body_failed eng)) \/
  (exists r, evs = [EvResponse (Got r); EvBody BodyComplete] /\ response_ok r = true /\
             json_parse (resp_text r) = None /\
             e = syntax_error (msg_json_syntax eng (resp_text r))).
Proof.
  split.
  - intros H. destruct (fetchUsers_run_cases _ _ H)
      as [[_ ?]|[(o & -> & Ho)|(r & b & -> & Hok & Hb)]]; [done| |].
    + destruct o as [|r]; simpl in Ho; [left; by simplify_eq|].
      destruct (response_ok r) eqn:Hok; simplify_eq. right; left. eauto.
    + right; right. destruct b; simpl in Hb.
      * right. destruct (json_parse (resp_text r)) eqn:Hr; simplify_eq. eauto 10.
      * left. simplify_eq. eauto.
  - intros [[-> ->]|[(r & -> & Hok & ->)|[(r & -> & Hok & ->)|(r & -> & Hok & Hb & ->)]]];
      simpl; rewrite ?Hok; simpl; rewrite ?Hb; done.
Qed.

End FetchClaims.

(** ** Examples *)

(** A body that is not JSON rejects with the SyntaxError of [JSON.parse];
    a number with a fraction is read as a double. *)
Example fetchUsers_bodies :
  fetchUsers_run v8 AwaitResponse [EvResponse (Got (mkResponse 200 "<html>")); EvBody BodyComplete] =
    Some (Settled (Throw (syntax_error "Unexpected token, <html> is not valid JSON"))) /\
  fetchUsers_run v8 AwaitResponse [EvResponse (Got (mkResponse 200 "[2.50]")); EvBody BodyComplete] =
    Some (Settled (Normal (Array [Number (double_of_decimal false 25 (-1))]))).
Proof. split; vm_compute; reflexivity. Qed.
