(* ===== verification/Interfaces.v ===== *)
(** * The interfaces main.js is written against

    main.js imports [fetchUsers] from api.js (line 2) and [displayUsers]
    and [displayError] from dom.js (line 3).  Each import is a class of
    operations: [ApiModule] holds the call of [fetchUsers] (the request it
    issues and the await it suspends at) and the resumption of a pending
    await by a network event; [DomModule] holds the two rendering
    functions on the document.  What main.js relies on of the rendering
    functions is stated apart, as the class of laws [DomSpec]: each ends
    as an abstract plan says (the cards [displayUsers] shows and the error
    it throws; the red paragraph of the message [displayError] shows) on
    an existing container, and throws without touching the document on a
    [null] one.  [displayError] is given the [message] of an error, a
    string.

    Main.v proves the handler and the event loop against these laws
    only.  The modules of this development discharge them: [api_module]
    and [dom_module] bind the imports to Api.v and Dom.v for an engine,
    and [dom_module_spec] proves the laws from the lemmas of Dom.v. *)

From S2P Require Import Prelude JsRuntime Document Dom Api.

(** ** The imported bindings *)

(** main.js line 2: [import { fetchUsers } from './api.js']. *)
Class ApiModule : Type := {
  fetchUsers_call : string * fetch_phase;
  fetchUsers_resume : fetch_phase -> net_event -> option fetch_phase
}.

(** main.js line 3: [import { displayUsers, displayError } from './dom.js']. *)
Class DomModule : Type := {
  displayUsers_import : value -> option positive -> dom unit;
  displayError_import : value -> option positive -> dom unit
}.

(** ** What main.js relies on *)

(** [plan users] is what [displayUsers] leaves in the container and the
    error it throws; [null_err] is the error of a [null] container. *)
Class DomSpec (M : DomModule) (plan : value -> list string * option js_error)
    (null_err : js_error) : Prop := {
  displayUsers_spec d c users : wf d -> in_doc d c ->
    exists d', displayUsers_import users (Some c) d = (plan_completion (plan users).2, d') /\
      wf d' /\ in_doc d' c /\ shows_cards d' c (plan users).1;
  displayUsers_null d users : displayUsers_import users None d = (Throw null_err, d);
  displayError_spec d c m : wf d -> in_doc d c ->
    exists d', displayError_import (Str m) (Some c) d = (Normal tt, d') /\
      wf d' /\ in_doc d' c /\ shows_markup d' c (error_html m);
  displayError_null d m : displayError_import (Str m) None d = (Throw null_err, d)
}.

(** ** The modules of this development *)

Definition api_module (eng : engine) : ApiModule :=
  {| fetchUsers_call := fetchUsers_start; fetchUsers_resume := fetchUsers_step eng |}.

Definition dom_module (eng : engine) : DomModule :=
  {| displayUsers_import := displayUsers eng; displayError_import := displayError eng |}.

#[export] Instance dom_module_spec eng :
  DomSpec (dom_module eng) (users_plan eng) (type_error (msg_set_prop eng "null" "innerHTML")).
Proof.
  split; simpl; [|done| |done].
  - intros d c users Hwf Hc.
    destruct (clear_container eng d c Hwf Hc) as (d1 & E1 & W1 & I1 & C1 & _ & _).
    destruct (plan_state_ok eng c d1 users W1 I1 C1) as (W2 & I2 & S2).
    exists (plan_state eng c d1 users). split_and!; [by apply displayUsers_eq|done..].
  - intros d c m Hwf Hc.
    destruct (displayError_shows eng d c (Str m) m Hwf Hc eq_refl) as (d' & E & ? & ? & ? & _).
    by exists d'.
Qed.
