(* ===== verification/Main.v ===== *)
(** * main.js: initialisation, the click handler and the event loop

    At module load main.js looks up [#loadUsersBtn] and [#usersContainer]
    ([module_init]); [loadUsersBtn.addEventListener] throws on a missing
    button, and then no listener exists.  Each click runs the async
    handler: it calls [fetchUsers] (which issues the request) and suspends;
    when [fetchUsers]'s promise settles with [c], the rest of the handler
    runs synchronously ([handler_resume]): [displayUsers] on the users, or
    [displayError] with the error's message when the [try] throws.

    The imported functions are the operations of the interfaces of
    Interfaces.v ([ApiModule], [DomModule]), and every lemma and theorem
    about the handler and the event loop is proved from their laws
    ([DomSpec]) only; the examples instantiate them with the modules of
    Api.v and Dom.v.

    The event loop is the step function [step] on [app]: a click appends a
    pending task (one per handler invocation), and the network delivers an
    event to one pending task, in any order across tasks.  Several requests
    may be in flight; the ghost field [app_settled] records, in order, the
    outcome of every [fetchUsers] that settled.  [reachable] is the set of
    states reachable from a page, by rule induction.

    The theorems: the container always shows the view of the most recent
    settlement (not of the most recent click: the stale-response race is
    run as an example), no handler rejects while the container exists,
    and the two missing-element paths.  An example runs the whole chain
    from the response text to the elements of a card. *)

From S2P Require Import Prelude JsRuntime Json Document Dom Html HtmlTree Api Interfaces.

(** ** State *)

(** One invocation of the click handler. *)
Inductive task : Type :=
| Pending (p : fetch_phase)
| Finished (c : completion js_error unit).

Record app : Type := mkApp {
  app_doc : document;
  app_button : option positive;
  app_container : option positive;
  (** the click listener was registered *)
  app_listening : bool;
  app_tasks : list task;
  (** ghost: each settled [fetchUsers] (task index, outcome), in order *)
  app_settled : list (nat * completion js_error value)
}.

Inductive event : Type :=
| Click
| Deliver (k : nat) (ev : net_event).

(** What the container should show after a settlement. *)
Inductive view : Type :=
| ViewCards (hs : list string)
| ViewMarkup (html : string).

Definition shows (d : document) (c : positive) (v : view) : Prop :=
  match v with
  | ViewCards hs => shows_cards d c hs
  | ViewMarkup html => shows_markup d c html
  end.

Section MainJs.
Context `{ApiModule, DomModule} (eng : engine).

(** main.js lines 5-8 at module evaluation. *)
Definition module_init (d : document) : app * option js_error :=
  let btn := get_element_by_id d "loadUsersBtn" in
  let ctr := get_element_by_id d "usersContainer" in
  match btn with
  | None =>
      (mkApp d btn ctr false [] [],
       Some (type_error (msg_read_prop eng "null" "addEventListener")))
  | Some _ => (mkApp d btn ctr true [] [], None)
  end.

(** main.js lines 9-14 once [await fetchUsers()] has settled with [c]. *)
Definition handler_resume (ctr : option positive) (c : completion js_error value)
  : dom unit :=
  try_catch (users <- lift c ;; displayUsers_import users ctr)
            (fun error => displayError_import (Str (err_message error)) ctr).

(** Task [k]'s [fetchUsers] reached phase [p]; if it settled, the handler
    runs to its end on the document. *)
Definition settle (a : app) (k : nat) (p : fetch_phase) : app :=
  match p with
  | Settled c =>
      let '(r, d') := handler_resume (app_container a) c (app_doc a) in
      mkApp d' (app_button a) (app_container a) (app_listening a)
            (<[k := Finished r]> (app_tasks a)) (app_settled a ++ [(k, c)])
  | _ =>
      mkApp (app_doc a) (app_button a) (app_container a) (app_listening a)
            (<[k := Pending p]> (app_tasks a)) (app_settled a)
  end.

(** One step of the event loop; [None] when the event is not possible. *)
Definition step (a : app) (ev : event) : option app :=
  match ev with
  | Click =>
      Some (if app_listening a
            then mkApp (app_doc a) (app_button a) (app_container a) true
                       (app_tasks a ++ [Pending fetchUsers_call.2]) (app_settled a)
            else a)
  | Deliver k nev =>
      match app_tasks a !! k with
      | Some (Pending p) => settle a k <$> fetchUsers_resume p nev
      | _ => None
      end
  end.

Fixpoint run (a : app) (evs : list event) : option app :=
  match evs with
  | [] => Some a
  | ev :: evs' => match step a ev with Some a' => run a' evs' | None => None end
  end.

Inductive reachable (d0 : document) : app -> Prop :=
| reach_init : reachable d0 (module_init d0).1
| reach_step a ev a' : reachable d0 a -> step a ev = Some a' -> reachable d0 a'.

End MainJs.

(** The abstract specification of the handler: the view its outcome
    leads to, given the plan of [displayUsers]. *)
Definition handler_view (plan : value -> list string * option js_error)
    (c : completion js_error value) : view :=
  match c with
  | Normal users =>
      match plan users with
      | (hs, None) => ViewCards hs
      | (_, Some e) => ViewMarkup (error_html (err_message e))
      end
  | Throw e => ViewMarkup (error_html (err_message e))
  end.

(** ** The handler *)

Section Handler.
Context {DM : DomModule} (plan : value -> list string * option js_error)
  (null_err : js_error) {HD : DomSpec DM plan null_err}.

(** With an existing container the handler always ends normally and the
    container shows the view of [fetchUsers]'s outcome. *)
Lemma handler_resume_ok d c outcome :
  wf d -> in_doc d c ->
  exists d', handler_resume (Some c) outcome d = (Normal tt, d') /\
    wf d' /\ in_doc d' c /\ shows d' c (handler_view plan outcome).
Proof.
  intros Hwf Hc. unfold handler_resume, handler_view.
  destruct outcome as [users|e].
  - destruct (displayUsers_spec d c users Hwf Hc) as (d1 & E1 & W1 & I1 & S1).
    assert (Hb : bind (lift (Normal users)) (fun u => displayUsers_import u (Some c)) d =
                 (plan_completion (plan users).2, d1))
      by (rewrite (bind_normal _ _ _ _ _ (lift_normal _ _ _ eq_refl)); exact E1).
    destruct (plan users) as [hs [e|]]; simpl in Hb, S1.
    + rewrite (try_catch_abrupt _ _ _ _ _ Hb).
      destruct (displayError_spec d1 c (err_message e) W1 I1) as (d' & E' & W' & I' & S').
      by exists d'.
    + rewrite (try_catch_normal _ _ _ _ _ Hb). by eexists.
  - rewrite (try_catch_abrupt _ _ _ _ _ (bind_abrupt _ _ _ _ _ (lift_abrupt _ _ _ eq_refl))).
    destruct (displayError_spec d c (err_message e) Hwf Hc) as (d' & E' & W' & I' & S').
    by exists d'.
Qed.

(** With a [null] container the handler rejects with the error of the
    [null] container and the document is unchanged. *)
Lemma handler_resume_null d outcome :
  handler_resume None outcome d = (Throw null_err, d).
Proof.
  unfold handler_resume. destruct outcome as [users|e].
  - rewrite (try_catch_abrupt _ _ _ null_err d); [apply displayError_null|].
    rewrite (bind_normal _ _ _ users d); [apply displayUsers_null|done].
  - rewrite (try_catch_abrupt _ _ _ e d); [apply displayError_null|done].
Qed.

End Handler.

(** ** The invariant of the event loop *)

Record app_inv (plan : value -> list string * option js_error) (null_err : js_error)
    (d0 : document) (a : app) : Prop := {
  inv_wf : wf (app_doc a);
  inv_fixed : app_container a = get_element_by_id d0 "usersContainer";
  inv_container : forall c, app_container a = Some c -> in_doc (app_doc a) c;
  inv_null : app_container a = None -> app_doc a = d0;
  inv_unsettled : app_settled a = [] -> app_doc a = d0;
  inv_view : forall c k outcome, app_container a = Some c ->
             last (app_settled a) = Some (k, outcome) ->
             shows (app_doc a) c (handler_view plan outcome);
  inv_finished : forall k r, app_tasks a !! k = Some (Finished r) ->
             r = match app_container a with
                 | Some _ => Normal tt
                 | None => Throw null_err
                 end;
  inv_idle : app_listening a = false -> app_tasks a = [] /\ app_settled a = []
}.

Section Invariant.
Context {AM : ApiModule} {DM : DomModule} (plan : value -> list string * option js_error)
  (null_err : js_error) {HD : DomSpec DM plan null_err} (eng : engine)
  (d0 : document) (Hwf0 : wf d0).

Lemma app_inv_init : app_inv plan null_err d0 (module_init eng d0).1.
Proof.
  unfold module_init. simpl.
  destruct (get_element_by_id d0 "loadUsersBtn"); split; simpl; try done;
    intros c Hc; by apply (get_element_by_id_in_doc _ "usersContainer").
Qed.

Lemma app_inv_settle a k p :
  app_inv plan null_err d0 a -> is_Some (app_tasks a !! k) ->
  app_inv plan null_err d0 (settle a k p).
Proof.
  intros Hi Hk.
  assert (Hbusy : app_listening a = true).
  { destruct (app_listening a) eqn:Hl; [done|].
    destruct (inv_idle _ _ _ _ Hi Hl) as [Ht _]. rewrite Ht in Hk. by destruct Hk. }
  assert (Hfin : forall r j r', r = match app_container a with
                                  | Some _ => Normal tt
                                  | None => Throw null_err end ->
            <[k := Finished r]> (app_tasks a) !! j = Some (Finished r') ->
            r' = match app_container a with
                 | Some _ => Normal tt
                 | None => Throw null_err end).
  { intros r j r' -> Hj.
    apply list_lookup_insert_Some in Hj as [(_ & [=<-] & _)|[_ Hj]]; [done|].
    by apply (inv_finished _ _ _ _ Hi j). }
  destruct p as [|r|outcome]; simpl.
  1, 2: destruct Hi; split; simpl; try done; [|by rewrite Hbusy].
  1, 2: intros j r' Hj; apply list_lookup_insert_Some in Hj as [(_ & [=] & _)|[_ Hj]]; eauto.
  destruct (app_container a) as [c|] eqn:Hc.
  - destruct (handler_resume_ok plan null_err (app_doc a) c outcome (inv_wf _ _ _ _ Hi)
                (inv_container _ _ _ _ Hi c Hc)) as (d' & E & W & I & S).
    rewrite E. split; simpl; rewrite ?Hbusy; try done.
    + rewrite <- Hc. apply Hi.
    + by intros ? [=<-].
    + by intros Hs; destruct (app_settled a).
    + intros c' k' o [=<-]. rewrite last_snoc. by intros [=<- <-].
    + intros j r'. by apply Hfin.
  - rewrite (handler_resume_null plan null_err). split; simpl; rewrite ?Hbusy; try done.
    + apply Hi.
    + rewrite <- Hc. apply Hi.
    + intros. by apply (inv_null _ _ _ _ Hi).
    + intros. by apply (inv_null _ _ _ _ Hi).
    + intros j r'. by apply Hfin.
Qed.

Lemma app_inv_step a ev a' :
  app_inv plan null_err d0 a -> step a ev = Some a' -> app_inv plan null_err d0 a'.
Proof.
  intros Hi. destruct ev as [|k nev]; simpl.
  - intros [=<-]. destruct (app_listening a) eqn:Hl; [|done].
    destruct Hi; split; simpl; try done.
    intros k r Hk. apply lookup_snoc_Some in Hk as [[_ Hk]|[_ [=]]]. eauto.
  - destruct (app_tasks a !! k) as [[p|]|] eqn:Hk; try done.
    destruct (fetchUsers_resume p nev) as [p'|]; simpl; [|done].
    intros [=<-]. apply app_inv_settle; [done|by rewrite Hk].
Qed.

Lemma app_inv_reachable a : reachable eng d0 a -> app_inv plan null_err d0 a.
Proof.
  induction 1 as [|a ev a' _ IH Hs]; [apply app_inv_init|].
  by apply (app_inv_step a ev).
Qed.

End Invariant.

(** ** Runs *)

Section Runs.
Context `{ApiModule, DomModule} (eng : engine).

Lemma run_reachable d0 a evs a' :
  reachable eng d0 a -> run a evs = Some a' -> reachable eng d0 a'.
Proof.
  revert a. induction evs as [|ev evs IH]; intros a Ha; simpl; [by intros [=<-]|].
  destruct (step a ev) as [a1|] eqn:E; [|done].
  intros. apply (IH a1); [by econstructor|done].
Qed.

Lemma step_listening a ev a' :
  step a ev = Some a' -> app_listening a' = app_listening a.
Proof.
  destruct ev as [|k nev]; simpl.
  - intros [=<-]. by destruct (app_listening a) eqn:Hl.
  - destruct (app_tasks a !! k) as [[p|]|]; try done.
    destruct (fetchUsers_resume p nev) as [[| |c]|]; simpl; try done;
      [intros [=<-]; done..|].
    intros [=<-]. by destruct (handler_resume (app_container a) c (app_doc a)).
Qed.

End Runs.

Definition ok_response (us : list value) : response :=
  mkResponse 200 (json_print (Array us)).

(** Two clicks; the second request is answered first. *)
Definition race_trace : list event :=
  [Click; Click;
   Deliver 1 (EvResponse (Got (ok_response [sample_user "Ervin" "Wisokyburgh"])));
   Deliver 1 (EvBody BodyComplete);
   Deliver 0 (EvResponse (Got (ok_response [sample_user "Leanne" "Gwenborough"])));
   Deliver 0 (EvBody BodyComplete)].

(** ** Properties of main.js *)

Section MainClaims.
Context {AM : ApiModule} {DM : DomModule} (plan : value -> list string * option js_error)
  (null_err : js_error) {HD : DomSpec DM plan null_err} (eng : engine).

(** C2: in every state reachable from a well-formed page whose container
    exists, the container shows the view of the last [fetchUsers] to
    settle: the page as loaded while none has settled, then the cards of
    the users of the latest settlement, or the red error paragraph. *)
Theorem reachable_shows_last_settled d0 a c :
  wf d0 -> reachable eng d0 a -> app_container a = Some c ->
  (app_settled a = [] -> app_doc a = d0) /\
  (forall k outcome, last (app_settled a) = Some (k, outcome) ->
     shows (app_doc a) c (handler_view plan outcome)).
Proof.
  intros Hwf Ha Hc. pose proof (app_inv_reachable plan null_err eng d0 Hwf a Ha) as Hi.
  split; [apply Hi|]. intros k o. by apply (inv_view _ _ _ _ Hi).
Qed.

(** C6: while the container exists no click handler ends in an unhandled
    rejection: every finished handler fulfilled. *)
Theorem reachable_no_rejection d0 a c k r :
  wf d0 -> reachable eng d0 a -> app_container a = Some c ->
  app_tasks a !! k = Some (Finished r) -> r = Normal tt.
Proof.
  intros Hwf Ha Hc Hk.
  pose proof (inv_finished _ _ _ _ (app_inv_reachable plan null_err eng d0 Hwf a Ha) k r Hk).
  by rewrite Hc in H.
Qed.

(** C10: when the page has no [#usersContainer], no handler ever changes
    the document and every finished handler rejected with the error of
    the [null] container (the TypeError of assigning [innerHTML] on
    [null]). *)
Theorem missing_container_rejects d0 a :
  wf d0 -> reachable eng d0 a -> get_element_by_id d0 "usersContainer" = None ->
  app_doc a = d0 /\
  forall k r, app_tasks a !! k = Some (Finished r) -> r = Throw null_err.
Proof.
  intros Hwf Ha Hn. pose proof (app_inv_reachable plan null_err eng d0 Hwf a Ha) as Hi.
  assert (Hc : app_container a = None) by (rewrite (inv_fixed _ _ _ _ Hi); done).
  split; [by apply (inv_null _ _ _ _ Hi)|].
  intros k r Hk. pose proof (inv_finished _ _ _ _ Hi k r Hk). by rewrite Hc in H.
Qed.

(** C11: when the page has no [#loadUsersBtn], evaluating main.js throws
    the TypeError of [null.addEventListener], no listener exists, and no
    event ever issues a request or changes the document. *)
Theorem missing_button_inert d0 a :
  wf d0 -> get_element_by_id d0 "loadUsersBtn" = None ->
  (module_init eng d0).2 = Some (type_error (msg_read_prop eng "null" "addEventListener")) /\
  (reachable eng d0 a -> app_tasks a = [] /\ app_doc a = d0).
Proof.
  intros Hwf Hb. unfold module_init. rewrite Hb. split; [done|].
  intros Ha. pose proof (app_inv_reachable plan null_err eng d0 Hwf a Ha) as Hi.
  assert (Hl : app_listening a = false).
  { clear Hi. induction Ha as [|a ev a' _ IH Hs]; [by unfold module_init; rewrite Hb|].
    by rewrite (step_listening _ _ _ Hs). }
  destruct (inv_idle _ _ _ _ Hi Hl) as [Ht Hs]. split; [done|]. by apply (inv_unsettled _ _ _ _ Hi).
Qed.

End MainClaims.

(** ** Examples *)

(** The modules of this development, on the V8 engine. *)
#[local] Instance v8_api : ApiModule := api_module v8.
#[local] Instance v8_dom : DomModule := dom_module v8.
#[local] Instance v8_dom_spec :
  DomSpec v8_dom (users_plan v8) (type_error (msg_set_prop v8 "null" "innerHTML")) :=
  dom_module_spec v8.

(** The state after [race_trace] on the expected page. *)
Definition race_state : app :=
  default (module_init v8 sample_page).1 (run (module_init v8 sample_page).1 race_trace).

(** The stale-response race: with two clicks whose requests are answered
    in the opposite order, the container ends up showing the users of the
    first, older request, because the handler of the later click settled
    first and the older one overwrote its cards. *)
Example stale_response_overwrites :
  run (module_init v8 sample_page).1 race_trace = Some race_state /\
  shows (app_doc race_state) 3 (ViewCards [card_template "Leanne" "Leanne@example.com" "Gwenborough"]) /\
  map fst (app_settled race_state) = [1; 0].
Proof.
  split_and!; [vm_compute; reflexivity| |vm_compute; reflexivity].
  exists [5%positive]. vm_compute. split; [reflexivity|]. repeat constructor.
Qed.

Lemma race_state_reachable : reachable v8 sample_page race_state.
Proof.
  apply (run_reachable v8 sample_page (module_init v8 sample_page).1 race_trace); [apply reach_init|vm_compute; reflexivity].
Qed.

Lemma reachable_shows_last_settled_witness :
  (app_settled race_state = [] -> app_doc race_state = sample_page) /\
  (forall k outcome, last (app_settled race_state) = Some (k, outcome) ->
     shows (app_doc race_state) 3 (handler_view (users_plan v8) outcome)).
Proof.
  apply (reachable_shows_last_settled (users_plan v8) (type_error (msg_set_prop v8 "null" "innerHTML")) v8 sample_page);
    [vm_decide|apply race_state_reachable|vm_compute; reflexivity].
Defined.

(** Both handlers of the race fulfilled. *)
Lemma reachable_no_rejection_witness :
  app_tasks race_state !! 0 = Some (Finished (Normal tt)) /\
  app_tasks race_state !! 1 = Some (Finished (Normal tt)).
Proof.
  assert (H : forall k, (exists r, app_tasks race_state !! k = Some (Finished r)) ->
                        app_tasks race_state !! k = Some (Finished (Normal tt))).
  { intros k [r Hr]. rewrite Hr. do 2 f_equal.
    apply (reachable_no_rejection (users_plan v8) (type_error (msg_set_prop v8 "null" "innerHTML"))
             v8 sample_page race_state 3 k r);
      [vm_decide|apply race_state_reachable|vm_compute; reflexivity|exact Hr]. }
  split; apply H; eexists; vm_compute; reflexivity.
Defined.

(** The page without [#usersContainer]. *)
Definition page_without_container : document :=
  mkDocument
    (list_to_map
       [(1%positive, mkElement "body" None [] [NElem 2] None);
        (2%positive, mkElement "button" (Some "loadUsersBtn") [] [NMarkup "Load users"]
                               (Some 1%positive))])
    3 1.

Definition no_container_state : app :=
  default (module_init v8 page_without_container).1
    (run (module_init v8 page_without_container).1
       [Click; Deliver 0 (EvResponse NetworkError)]).

Lemma missing_container_rejects_witness :
  app_doc no_container_state = page_without_container /\
  forall k r, app_tasks no_container_state !! k = Some (Finished r) ->
    r = Throw (type_error "Cannot set properties of null (setting 'innerHTML')").
Proof.
  apply (missing_container_rejects (users_plan v8) (type_error (msg_set_prop v8 "null" "innerHTML")) v8 page_without_container); [vm_decide| |vm_compute; reflexivity].
  apply (run_reachable v8 page_without_container (module_init v8 page_without_container).1
           [Click; Deliver 0 (EvResponse NetworkError)]);
    [apply reach_init|vm_compute; reflexivity].
Defined.

(** The page without [#loadUsersBtn]. *)
Definition page_without_button : document :=
  mkDocument
    (list_to_map
       [(1%positive, mkElement "body" None [] [NElem 3] None);
        (3%positive, mkElement "div" (Some "usersContainer") [] [] (Some 1%positive))])
    4 1.

Lemma missing_button_inert_witness :
  (module_init v8 page_without_button).2 =
    Some (type_error "Cannot read properties of null (reading 'addEventListener')") /\
  (reachable v8 page_without_button (module_init v8 page_without_button).1 ->
   app_tasks (module_init v8 page_without_button).1 = [] /\
   app_doc (module_init v8 page_without_button).1 = page_without_button).
Proof. apply (missing_button_inert (users_plan v8) (type_error (msg_set_prop v8 "null" "innerHTML"))); [vm_decide|vm_compute; reflexivity]. Defined.

(** ** From the response bytes to the page *)

(** One click, answered with the JSON text of a user whose name carries an
    [<img onerror>] tag. *)
Definition injection_trace : list event :=
  [Click;
   Deliver 0 (EvResponse (Got (ok_response [sample_user img_payload "Gwenborough"])));
   Deliver 0 (EvBody BodyComplete)].

Definition injection_state : app :=
  default (module_init v8 sample_page).1 (run (module_init v8 sample_page).1 injection_trace).

(** End to end, from the response text through [JSON.parse],
    [displayUsers] and the parser of the [innerHTML] setter: after the
    click the container holds one card whose markup has an [img] start
    tag where the name and the email are interpolated, beside the
    template's own tags, and so an [img] element in its heading and in its
    first paragraph. *)
Example injected_markup_reaches_page :
  run (module_init v8 sample_page).1 injection_trace = Some injection_state /\
  exists h, shows (app_doc injection_state) 3 (ViewCards [h]) /\
    html_tokens h =
      [StartTag "h3"; StartTag "img"; EndTag "h3"; StartTag "p"; StartTag "strong";
       EndTag "strong"; StartTag "img"; EndTag "p"; StartTag "p"; StartTag "strong";
       EndTag "strong"; EndTag "p"] /\
    html_tree h =
      [HElem "h3" [HElem "img" []]; HElem "p" [HElem "strong" []; HElem "img" []];
       HElem "p" [HElem "strong" []]].
Proof.
  split; [vm_compute; reflexivity|].
  eexists. split; [exists [4%positive]; vm_compute; split; [reflexivity|repeat constructor]|].
  split_and!; vm_compute; reflexivity.
Qed.
